(** * mqtt_client_cpp: the endpoint and the client, embedded in Rocq

    A shallow embedding of [include/mqtt/endpoint.hpp] and of the keep-alive
    part of [include/mqtt/client.hpp].  The mutable members of
    [mqtt::endpoint] form a record, member functions are computations in a
    state-and-exception monad over that record, [as::write] appends to the
    list of buffers handed to the socket, and a user handler that is invoked
    leaves an entry in a call log. *)

From Stdlib Require Import ZArith List Bool Lia.
From Stdlib.Strings Require Import Byte.
Import ListNotations.
Open Scope Z_scope.

(** ** Characters and strings

    A C++ [char] is a [byte]; [uchar] is its value as an unsigned octet
    (what [static_cast<std::uint8_t>] and the masks [& 0xff] of the source
    compute) and [to_char] is the narrowing conversion [static_cast<char>],
    which keeps the low eight bits.  A [std::string] or [std::vector<char>]
    is a list of bytes. *)

Definition uchar (b : byte) : Z := Z.of_N (Byte.to_N b).

Definition to_char (z : Z) : byte :=
  match Byte.of_N (Z.to_N (z mod 256)) with
  | Some b => b
  | None => x00
  end.

Definition str := list byte.

Definition uint8_t (z : Z) : Z := z mod 256.
Definition uint16_t (z : Z) : Z := z mod 65536.

(** ** Headers of the library that [endpoint.hpp] includes *)

(** Modelled from the spec: [mqtt/control_packet_type.hpp] is not among the
    sources.  The fourteen v3.1.1 packet kinds in the order the spec lists
    them, numbered from 1, and the kind read back from the high nibble of
    the first byte. *)
Module control_packet_type.
Definition connect : Z := 1.
Definition connack : Z := 2.
Definition publish : Z := 3.
Definition puback : Z := 4.
Definition pubrec : Z := 5.
Definition pubrel : Z := 6.
Definition pubcomp : Z := 7.
Definition subscribe : Z := 8.
Definition suback : Z := 9.
Definition unsubscribe : Z := 10.
Definition unsuback : Z := 11.
Definition pingreq : Z := 12.
Definition pingresp : Z := 13.
Definition disconnect : Z := 14.
End control_packet_type.

(** Modelled from the spec: [mqtt/fixed_header.hpp] is not among the
    sources.  The packet kind sits in the high nibble of the first byte and
    the flags in the low nibble. *)
Definition make_fixed_header (type flags : Z) : Z :=
  Z.lor (uint8_t (Z.shiftl type 4)) flags.

Definition get_control_packet_type (v : Z) : Z := Z.shiftr v 4.

(** The low nibble of a fixed header: the fixed-header flags. *)
Definition low_nibble (v : Z) : Z := Z.land v 15.

(** Modelled from the spec: [mqtt/qos.hpp] is not among the sources. *)
Module qos.
Definition at_most_once : Z := 0.
Definition at_least_once : Z := 1.
Definition exactly_once : Z := 2.
End qos.

(** Modelled from the spec: [mqtt/publish.hpp] is not among the sources.
    For PUBLISH the flags are DUP (bit 3), QoS (bits 2-1), RETAIN (bit 0). *)
Module publish.
Definition is_dup (v : Z) : bool := Z.testbit v 3.
Definition get_qos (v : Z) : Z := Z.shiftr (Z.land v 6) 1.
Definition is_retain (v : Z) : bool := Z.testbit v 0.
End publish.

(** Modelled from the spec: [mqtt/connect_flags.hpp] is not among the
    sources.  The spec says the optional CONNECT fields are gated by flag
    bits; the positions are those of MQTT 3.1.1, of which [send_connect]
    confirms the clean-session bit. *)
Module connect_flags.
Definition clean_session : Z := 2.
Definition will_flag : Z := 4.
Definition will_retain : Z := 32.
Definition password_flag : Z := 64.
Definition user_name_flag : Z := 128.
Definition has_clean_session (v : Z) : bool := negb (Z.land v clean_session =? 0).
Definition has_will_flag (v : Z) : bool := negb (Z.land v will_flag =? 0).
Definition has_will_retain (v : Z) : bool := negb (Z.land v will_retain =? 0).
Definition has_password_flag (v : Z) : bool := negb (Z.land v password_flag =? 0).
Definition has_user_name_flag (v : Z) : bool := negb (Z.land v user_name_flag =? 0).
Definition will_qos (v : Z) : Z := Z.shiftr (Z.land v 24) 3.
Definition set_will_qos (v q : Z) : Z := Z.lor v (Z.shiftl (Z.land q 3) 3).
End connect_flags.

(** Modelled from the spec: [mqtt/connect_return_code.hpp] and
    [mqtt/session_present.hpp] are not among the sources.  Return code 0 is
    "accepted"; the session-present flag is bit 0 of the first CONNACK byte. *)
Module connect_return_code.
Definition accepted : Z := 0.
End connect_return_code.

Definition is_session_present (v : Z) : bool := Z.testbit v 0.

(** Modelled from the spec: [mqtt/encoded_length.hpp] is not among the
    sources.  The two-byte big-endian length prefix of a string. *)
Definition encoded_length (s : str) : str :=
  let size := Z.of_nat (length s) in
  [to_char (Z.shiftr size 8); to_char (Z.land size 255)].

(** Modelled from the spec: [mqtt/utf8encoded_strings.hpp] is not among the
    sources.  A string longer than 65535 bytes is rejected; the check of the
    contents is a parameter of the endpoint below. *)
Module utf8string.
Definition is_valid_length (s : str) : bool := Z.of_nat (length s) <=? 65535.
End utf8string.

(** Modelled from the spec: [mqtt/will.hpp] is not among the sources. *)
Record will := mk_will {
  will_topic : str;
  will_message : str;
  will_retain : bool;
  will_qos : Z
}.

(** The exceptions of the library.  [undefined_read] is not an exception: it
    marks a read of [payload_] past its end, which is undefined in C++. *)
Inductive error :=
| protocol_error
| remaining_length_error
| read_bytes_transferred_error
| utf8string_length_error
| utf8string_contents_error
| will_message_length_error
| password_length_error
| undefined_read.

(** Modelled from the spec: [mqtt/remaining_length.hpp] is not among the
    sources.  The remaining length as a base-128 little-endian integer of one
    to four bytes in minimum-length form; a size above 268,435,455 has no
    encoding. *)
Definition remaining_bytes (size : Z) : option str :=
  if size <? 0 then None
  else if size <? 128 then Some [to_char size]
  else if size <? 16384 then
    Some [to_char (Z.lor (Z.land size 127) 128); to_char (Z.shiftr size 7)]
  else if size <? 2097152 then
    Some [to_char (Z.lor (Z.land size 127) 128);
          to_char (Z.lor (Z.land (Z.shiftr size 7) 127) 128);
          to_char (Z.shiftr size 14)]
  else if size <? 268435456 then
    Some [to_char (Z.lor (Z.land size 127) 128);
          to_char (Z.lor (Z.land (Z.shiftr size 7) 127) 128);
          to_char (Z.lor (Z.land (Z.shiftr size 14) 127) 128);
          to_char (Z.shiftr size 21)]
  else None.

(** ** The data of an endpoint *)

(** [struct store]: an in-flight entry.  [buf] is the shared buffer ([None]
    for the null pointer), [ptr] the offset of the packet in it and [size]
    the length of the packet. *)
Record store := mk_store {
  packet_id : Z;
  expected_control_packet_type : Z;
  buf : option str;
  ptr : nat;
  size : nat
}.

(** The bytes [as::buffer(it->ptr, it->size)] denotes. *)
Definition store_bytes (e : store) : str :=
  match buf e with
  | Some b => firstn (size e) (skipn (ptr e) b)
  | None => []
  end.

(** The user handlers; [call] is one invocation with its arguments. *)
Inductive handler :=
| H_close | H_error | H_connect | H_connack | H_publish | H_puback | H_pubrec
| H_pubrel | H_pubcomp | H_subscribe | H_suback | H_unsubscribe | H_unsuback
| H_pingreq | H_pingresp | H_disconnect.

Inductive call :=
| h_close
| h_error
| h_connect (client_id : str) (username password : option str)
            (w : option will) (clean_session : bool) (keep_alive : Z)
| h_connack (session_present : bool) (return_code : Z)
| h_publish (fixed_header : Z) (pid : option Z) (topic_name contents : str)
| h_puback (pid : Z)
| h_pubrec (pid : Z)
| h_pubcomp (pid : Z)
| h_subscribe (pid : Z) (entries : list (str * Z))
| h_suback (pid : Z) (qoss : list (option Z))
| h_unsubscribe (pid : Z) (topics : list str)
| h_unsuback (pid : Z)
| h_pingreq
| h_pingresp
| h_disconnect.

(** The members of [mqtt::endpoint].  [socket_] is the sequence of buffers
    written so far, oldest first; [h_] says which handlers are set and
    [calls_] logs their invocations, oldest first. *)
Record endpoint := mk_endpoint {
  socket_ : list str;
  connected_ : bool;
  client_id_ : str;
  clean_session_ : bool;
  will_ : option will;
  fixed_header_ : Z;
  remaining_length_multiplier_ : Z;
  remaining_length_ : Z;
  payload_ : str;
  h_ : handler -> bool;
  calls_ : list call;
  user_name_ : option str;
  password_ : option str;
  store_ : list store;
  packet_id_master_ : Z
}.

(** ** State and exceptions *)

(** A member function returns a value in a new state, throws in a new state,
    or never returns. *)
Inductive outcome (A : Type) :=
| Ok (a : A) (s : endpoint)
| Throw (e : error) (s : endpoint)
| Diverge.
Arguments Ok {A} a s.
Arguments Throw {A} e s.
Arguments Diverge {A}.

Definition M (A : Type) := endpoint -> outcome A.

Definition ret {A} (a : A) : M A := fun s => Ok a s.
Definition bind {A B} (m : M A) (k : A -> M B) : M B :=
  fun s => match m s with
           | Ok a s' => k a s'
           | Throw e s' => Throw e s'
           | Diverge => Diverge
           end.
Definition throw {A} (e : error) : M A := fun s => Throw e s.
Definition get : M endpoint := fun s => Ok s s.
Definition gets {A} (f : endpoint -> A) : M A := fun s => Ok (f s) s.
Definition modify (f : endpoint -> endpoint) : M unit := fun s => Ok tt (f s).
Definition when (b : bool) (m : M unit) : M unit := if b then m else ret tt.

Declare Scope m_scope.
Delimit Scope m_scope with m.
Notation "x <- m ;; k" := (bind m (fun x => k))
  (at level 61, m at next level, right associativity) : m_scope.
Notation "m ;; k" := (bind m (fun _ => k))
  (at level 61, right associativity) : m_scope.
Open Scope m_scope.

(** Field updates. *)
Definition set_socket (v : list str) (s : endpoint) : endpoint :=
  mk_endpoint v (connected_ s) (client_id_ s) (clean_session_ s) (will_ s)
    (fixed_header_ s) (remaining_length_multiplier_ s) (remaining_length_ s)
    (payload_ s) (h_ s) (calls_ s) (user_name_ s) (password_ s) (store_ s)
    (packet_id_master_ s).
Definition set_connected (v : bool) (s : endpoint) : endpoint :=
  mk_endpoint (socket_ s) v (client_id_ s) (clean_session_ s) (will_ s)
    (fixed_header_ s) (remaining_length_multiplier_ s) (remaining_length_ s)
    (payload_ s) (h_ s) (calls_ s) (user_name_ s) (password_ s) (store_ s)
    (packet_id_master_ s).
Definition set_fixed_header (v : Z) (s : endpoint) : endpoint :=
  mk_endpoint (socket_ s) (connected_ s) (client_id_ s) (clean_session_ s)
    (will_ s) v (remaining_length_multiplier_ s) (remaining_length_ s)
    (payload_ s) (h_ s) (calls_ s) (user_name_ s) (password_ s) (store_ s)
    (packet_id_master_ s).
Definition set_remaining_length_multiplier (v : Z) (s : endpoint) : endpoint :=
  mk_endpoint (socket_ s) (connected_ s) (client_id_ s) (clean_session_ s)
    (will_ s) (fixed_header_ s) v (remaining_length_ s)
    (payload_ s) (h_ s) (calls_ s) (user_name_ s) (password_ s) (store_ s)
    (packet_id_master_ s).
Definition set_remaining_length (v : Z) (s : endpoint) : endpoint :=
  mk_endpoint (socket_ s) (connected_ s) (client_id_ s) (clean_session_ s)
    (will_ s) (fixed_header_ s) (remaining_length_multiplier_ s) v
    (payload_ s) (h_ s) (calls_ s) (user_name_ s) (password_ s) (store_ s)
    (packet_id_master_ s).
Definition set_payload (v : str) (s : endpoint) : endpoint :=
  mk_endpoint (socket_ s) (connected_ s) (client_id_ s) (clean_session_ s)
    (will_ s) (fixed_header_ s) (remaining_length_multiplier_ s)
    (remaining_length_ s) v (h_ s) (calls_ s) (user_name_ s) (password_ s)
    (store_ s) (packet_id_master_ s).
Definition set_calls (v : list call) (s : endpoint) : endpoint :=
  mk_endpoint (socket_ s) (connected_ s) (client_id_ s) (clean_session_ s)
    (will_ s) (fixed_header_ s) (remaining_length_multiplier_ s)
    (remaining_length_ s) (payload_ s) (h_ s) v (user_name_ s) (password_ s)
    (store_ s) (packet_id_master_ s).
Definition set_store (v : list store) (s : endpoint) : endpoint :=
  mk_endpoint (socket_ s) (connected_ s) (client_id_ s) (clean_session_ s)
    (will_ s) (fixed_header_ s) (remaining_length_multiplier_ s)
    (remaining_length_ s) (payload_ s) (h_ s) (calls_ s) (user_name_ s)
    (password_ s) v (packet_id_master_ s).
Definition set_packet_id_master (v : Z) (s : endpoint) : endpoint :=
  mk_endpoint (socket_ s) (connected_ s) (client_id_ s) (clean_session_ s)
    (will_ s) (fixed_header_ s) (remaining_length_multiplier_ s)
    (remaining_length_ s) (payload_ s) (h_ s) (calls_ s) (user_name_ s)
    (password_ s) (store_ s) v.

(** [as::write] on the socket: the write is synchronous. *)
Definition write (b : str) : M unit :=
  modify (fun s => set_socket (socket_ s ++ [b]) s).

(** [if (h) h(args)]: the handler is invoked when it is set. *)
Definition invoke (h : handler) (c : call) : M unit :=
  fun s => if h_ s h then Ok tt (set_calls (calls_ s ++ [c]) s) else Ok tt s.

(** [payload_[i]]. *)
Definition payload_at (i : Z) : M Z :=
  fun s => match nth_error (payload_ s) (Z.to_nat i) with
           | Some b => Ok (uchar b) s
           | None => Throw undefined_read s
           end.

(** [std::string(payload_.data() + i, n)]. *)
Definition payload_string (i n : Z) : M str :=
  fun s => if (0 <=? n) && (i + n <=? Z.of_nat (length (payload_ s)))
           then Ok (firstn (Z.to_nat n) (skipn (Z.to_nat i) (payload_ s))) s
           else Throw undefined_read s.

(** [make_uint16_t(b1, b2)], on the unsigned values of the two characters. *)
Definition make_uint16_t (b1 b2 : Z) : Z :=
  Z.lor (Z.shiftl (Z.land b1 255) 8) (Z.land b2 255).

(** [make_uint16_t(payload_[i], payload_[i + 1])]. *)
Definition payload_uint16 (i : Z) : M Z :=
  b1 <- payload_at i ;;
  b2 <- payload_at (i + 1) ;;
  ret (make_uint16_t b1 b2).

(** ** The in-flight store

    [mi_store] is a [multi_index_container] with a unique ordered index on
    (packet id, expected packet kind), a non-unique ordered index on the
    packet id and a sequenced index.  The list is the sequenced index:
    entries in the order they were inserted. *)

Definition same_key (id type : Z) (e : store) : bool :=
  (packet_id e =? id) && (expected_control_packet_type e =? type).

(** [store_.emplace(...)]: the entry is appended unless the unique index
    already holds an entry with its key, in which case nothing is inserted. *)
Definition emplace (e : store) (l : list store) : list store :=
  if existsb (same_key (packet_id e) (expected_control_packet_type e)) l
  then l
  else l ++ [e].

(** [idx.erase(r.first, r.second)] for [r = idx.equal_range((id, type))]. *)
Definition erase_key (id type : Z) (l : list store) : list store :=
  filter (fun e => negb (same_key id type e)) l.

Definition store_emplace (e : store) : M unit :=
  modify (fun s => set_store (emplace e (store_ s)) s).

Definition store_erase (id type : Z) : M unit :=
  modify (fun s => set_store (erase_key id type (store_ s)) s).

(** The packet ids in the store, and the entries stored under an id. *)
Definition store_ids (l : list store) : list Z := map packet_id l.

Definition entries_of (id : Z) (l : list store) : list store :=
  filter (fun e => packet_id e =? id) l.

(** [is_unique_packet_id]. *)
Definition is_unique (id : Z) (l : list store) : bool :=
  if id =? 0 then false
  else forallb (fun e => negb (packet_id e =? id)) l.

Definition is_unique_packet_id (id : Z) : M bool :=
  gets (fun s => is_unique id (store_ s)).

(** The loop of [create_unique_packet_id]: [do ++packet_id_master_ while
    the id is not unique], run for at most [fuel] iterations.  The counter is
    a [std::uint16_t], so the increment wraps from 65535 to 0. *)
Fixpoint packet_id_loop (fuel : nat) (master : Z) (l : list store) : option Z :=
  match fuel with
  | O => None
  | S fuel' =>
      let master' := uint16_t (master + 1) in
      if is_unique master' l then Some master'
      else packet_id_loop fuel' master' l
  end.

(** [create_unique_packet_id].  The store does not change while the loop
    runs.  An iteration that does not end the loop finds the counter at 0 or
    at an id of the store, and the counter takes no value twice before it
    has taken all 65536; so a loop that has not returned after two
    iterations more than the store has entries has seen every value of the
    counter and never returns ([packet_id_loop_enough],
    [packet_id_loop_never]). *)
Definition create_unique_packet_id : M Z :=
  fun s => match packet_id_loop (S (S (length (store_ s))))
                   (packet_id_master_ s) (store_ s) with
           | Some id => Ok id (set_packet_id_master id s)
           | None => Diverge
           end.

(** The period of the 16-bit counter. *)
Definition counter_period : nat := Z.to_nat 65536.

(** ** [class send_buffer]

    The buffer starts with [payload_position_] zero bytes, room for the fixed
    header and the longest remaining length; the body is appended behind
    them.  [finalize] writes the fixed header and the remaining length just
    in front of the body and returns the buffer with the position and the
    size of the packet in it. *)

Definition payload_position_ : nat := 5.

Definition new_send_buffer : str := repeat x00 payload_position_.

Definition replace (pos n : nat) (r b : str) : str :=
  firstn pos b ++ r ++ skipn (pos + n) b.

Definition finalize (b : str) (fixed_header : Z) : M (str * (nat * nat)) :=
  match remaining_bytes (Z.of_nat (length b - payload_position_)) with
  | None => throw remaining_length_error
  | Some rb =>
      let start_position := (payload_position_ - length rb - 1)%nat in
      let b1 := replace start_position 1 [to_char fixed_header] b in
      let b2 := replace (start_position + 1) (length rb) rb b1 in
      ret (b2, (start_position, (length b2 - start_position)%nat))
  end.

(** The bytes [as::buffer(ptr_size.first, ptr_size.second)] denotes. *)
Definition packet_of (b : str) (ps : nat * nat) : str :=
  firstn (snd ps) (skipn (fst ps) b).

Section Endpoint.

(** [utf8string::is_valid_contents], which is not among the sources. *)
Variable is_valid_contents : str -> bool.

(** [sb.buf()->insert(...)] of a validated string behind its length. *)
Definition push_utf8 (b : str) (s : str) : M str :=
  if negb (utf8string.is_valid_length s) then throw utf8string_length_error
  else if negb (is_valid_contents s) then throw utf8string_contents_error
  else ret (b ++ encoded_length s ++ s).

(** [char& c = ( *sb.buf())[pos]; c |= flag]: a character of the buffer
    updated in place. *)
Definition char_at (pos : nat) (b : str) : Z := uchar (nth pos b x00).

Definition set_char (pos : nat) (c : Z) (b : str) : str :=
  replace pos 1 [to_char c] b.

Definition or_char (pos : nat) (flag : Z) (b : str) : str :=
  set_char pos (Z.lor (char_at pos b) flag) b.

Definition send_connect (keep_alive_sec : Z) : M unit :=
  s <- get ;;
  let sb := new_send_buffer in
  let sb := sb ++ [x00] in
  let sb := sb ++ [x04] in
  let sb := sb ++ [x4d] in
  let sb := sb ++ [x51] in
  let sb := sb ++ [x54] in
  let sb := sb ++ [x54] in
  let sb := sb ++ [x04] in
  let connect_flags_position := length sb in
  let initial_value := if clean_session_ s then 2 else 0 in
  let sb := sb ++ [to_char initial_value] in
  let sb := sb ++ [to_char (Z.shiftr keep_alive_sec 8)] in
  let sb := sb ++ [to_char (Z.land keep_alive_sec 255)] in
  sb <- push_utf8 sb (client_id_ s) ;;
  sb <- match will_ s with
        | Some w =>
            let sb := or_char connect_flags_position connect_flags.will_flag sb in
            let sb := if will_retain w
                      then or_char connect_flags_position connect_flags.will_retain sb
                      else sb in
            let sb := set_char connect_flags_position
                        (connect_flags.set_will_qos
                           (char_at connect_flags_position sb) (will_qos w)) sb in
            sb <- push_utf8 sb (will_topic w) ;;
            if 65535 <? Z.of_nat (length (will_message w))
            then throw will_message_length_error
            else ret (sb ++ encoded_length (will_message w) ++ will_message w)
        | None => ret sb
        end ;;
  sb <- match user_name_ s with
        | Some u =>
            let sb := or_char connect_flags_position connect_flags.user_name_flag sb in
            push_utf8 sb u
        | None => ret sb
        end ;;
  sb <- match password_ s with
        | Some p =>
            let sb := or_char connect_flags_position connect_flags.password_flag sb in
            if 65535 <? Z.of_nat (length p) then throw password_length_error
            else ret (sb ++ encoded_length p ++ p)
        | None => ret sb
        end ;;
  f <- finalize sb (make_fixed_header control_packet_type.connect 0) ;;
  write (packet_of (fst f) (snd f)).

Definition send_conack (session_present : bool) (return_code : Z) : M unit :=
  let sb := new_send_buffer in
  let sb := sb ++ [to_char (if session_present then 1 else 0)] in
  let sb := sb ++ [to_char return_code] in
  f <- finalize sb (make_fixed_header control_packet_type.connack 0) ;;
  write (packet_of (fst f) (snd f)).

Definition send_publish (topic_name : str) (qos : Z) (retain : bool)
    (packet_id : Z) (payload : str) : M unit :=
  let sb := new_send_buffer in
  sb <- push_utf8 sb topic_name ;;
  let sb := if (qos =? qos.at_least_once) || (qos =? qos.exactly_once)
            then (sb ++ [to_char (Z.shiftr packet_id 8)])
                 ++ [to_char (Z.land packet_id 255)]
            else sb in
  let sb := sb ++ payload in
  let flags := 0 in
  let flags := if retain then Z.lor flags 1 else flags in
  let flags := uint8_t (Z.lor flags (Z.shiftl qos 1)) in
  f <- finalize sb (make_fixed_header control_packet_type.publish flags) ;;
  write (packet_of (fst f) (snd f)) ;;
  if 0 <? qos then
    let flags := Z.lor flags 8 in
    f <- finalize (fst f) (make_fixed_header control_packet_type.publish flags) ;;
    store_emplace
      (mk_store packet_id
         (if qos =? qos.at_least_once then control_packet_type.puback
          else control_packet_type.pubrec)
         (Some (fst f)) (fst (snd f)) (snd (snd f)))
  else ret tt.

Definition send_puback (packet_id : Z) : M unit :=
  let sb := new_send_buffer in
  let sb := sb ++ [to_char (Z.shiftr packet_id 8)] in
  let sb := sb ++ [to_char (Z.land packet_id 255)] in
  f <- finalize sb (make_fixed_header control_packet_type.puback 0) ;;
  write (packet_of (fst f) (snd f)).

Definition send_pubrec (packet_id : Z) : M unit :=
  let sb := new_send_buffer in
  let sb := sb ++ [to_char (Z.shiftr packet_id 8)] in
  let sb := sb ++ [to_char (Z.land packet_id 255)] in
  f <- finalize sb (make_fixed_header control_packet_type.pubrec 0) ;;
  write (packet_of (fst f) (snd f)).

Definition send_pubrel (packet_id : Z) : M unit :=
  let sb := new_send_buffer in
  let sb := sb ++ [to_char (Z.shiftr packet_id 8)] in
  let sb := sb ++ [to_char (Z.land packet_id 255)] in
  f <- finalize sb (make_fixed_header control_packet_type.pubrel 2) ;;
  write (packet_of (fst f) (snd f)) ;;
  store_emplace
    (mk_store packet_id control_packet_type.pubcomp
       (Some (fst f)) (fst (snd f)) (snd (snd f))).

Definition send_pubcomp (packet_id : Z) : M unit :=
  let sb := new_send_buffer in
  let sb := sb ++ [to_char (Z.shiftr packet_id 8)] in
  let sb := sb ++ [to_char (Z.land packet_id 255)] in
  f <- finalize sb (make_fixed_header control_packet_type.pubcomp 0) ;;
  write (packet_of (fst f) (snd f)).

(** [send_subscribe], after the variadic overload has collected the pairs
    of topic and QoS in [params]. *)
Fixpoint push_subscribe_params (sb : str) (params : list (str * Z)) : M str :=
  match params with
  | [] => ret sb
  | e :: rest =>
      sb <- push_utf8 sb (fst e) ;;
      push_subscribe_params (sb ++ [to_char (snd e)]) rest
  end.

Definition send_subscribe (params : list (str * Z)) (packet_id : Z) : M unit :=
  let sb := new_send_buffer in
  let sb := sb ++ [to_char (Z.shiftr packet_id 8)] in
  let sb := sb ++ [to_char (Z.land packet_id 255)] in
  sb <- push_subscribe_params sb params ;;
  f <- finalize sb (make_fixed_header control_packet_type.subscribe 2) ;;
  store_emplace (mk_store packet_id control_packet_type.suback None 0 0) ;;
  write (packet_of (fst f) (snd f)).

Definition send_suback (params : list Z) (packet_id : Z) : M unit :=
  let sb := new_send_buffer in
  let sb := sb ++ [to_char (Z.shiftr packet_id 8)] in
  let sb := sb ++ [to_char (Z.land packet_id 255)] in
  let sb := sb ++ map to_char params in
  f <- finalize sb (make_fixed_header control_packet_type.suback 0) ;;
  store_emplace (mk_store packet_id control_packet_type.suback None 0 0) ;;
  write (packet_of (fst f) (snd f)).

Fixpoint push_unsubscribe_params (sb : str) (params : list str) : M str :=
  match params with
  | [] => ret sb
  | e :: rest =>
      sb <- push_utf8 sb e ;;
      push_unsubscribe_params sb rest
  end.

Definition send_unsubscribe (params : list str) (packet_id : Z) : M unit :=
  let sb := new_send_buffer in
  let sb := sb ++ [to_char (Z.shiftr packet_id 8)] in
  let sb := sb ++ [to_char (Z.land packet_id 255)] in
  sb <- push_unsubscribe_params sb params ;;
  f <- finalize sb (make_fixed_header control_packet_type.unsubscribe 2) ;;
  store_emplace (mk_store packet_id control_packet_type.unsuback None 0 0) ;;
  write (packet_of (fst f) (snd f)).

Definition send_unsuback (packet_id : Z) : M unit :=
  let sb := new_send_buffer in
  let sb := sb ++ [to_char (Z.shiftr packet_id 8)] in
  let sb := sb ++ [to_char (Z.land packet_id 255)] in
  f <- finalize sb (make_fixed_header control_packet_type.unsuback 2) ;;
  store_emplace (mk_store packet_id control_packet_type.unsuback None 0 0) ;;
  write (packet_of (fst f) (snd f)).

Definition send_pingreq : M unit :=
  f <- finalize new_send_buffer (make_fixed_header control_packet_type.pingreq 0) ;;
  write (packet_of (fst f) (snd f)).

Definition send_pingresp : M unit :=
  f <- finalize new_send_buffer (make_fixed_header control_packet_type.pingresp 0) ;;
  write (packet_of (fst f) (snd f)).

Definition send_disconnect : M unit :=
  f <- finalize new_send_buffer (make_fixed_header control_packet_type.disconnect 0) ;;
  write (packet_of (fst f) (snd f)) ;;
  modify (set_connected false).

(** ** The public operations *)




Definition publish (topic_name contents : str) (qos : Z) (retain : bool) : M Z :=
  packet_id <- create_unique_packet_id ;;
  send_publish topic_name qos retain packet_id contents ;;
  ret packet_id.

Definition subscribe (topic_name : str) (qos : Z) (args : list (str * Z)) : M Z :=
  packet_id <- create_unique_packet_id ;;
  send_subscribe ((topic_name, qos) :: args) packet_id ;;
  ret packet_id.

Definition unsubscribe (topic_name : str) (args : list str) : M Z :=
  packet_id <- create_unique_packet_id ;;
  send_unsubscribe (topic_name :: args) packet_id ;;
  ret packet_id.

Definition disconnect : M unit :=
  c <- gets connected_ ;;
  if c then send_disconnect ;; modify (set_connected false) else ret tt.

(** The overloads that take the packet id from the caller. *)


Definition publish_exactly_once_id (packet_id : Z) (topic_name contents : str)
    (retain : bool) : M bool :=
  u <- is_unique_packet_id packet_id ;;
  if u then
    send_publish topic_name qos.exactly_once retain packet_id contents ;;
    ret true
  else ret false.




(** ** The handlers of the received packets *)

Definition handle_close : M unit := invoke H_close h_close.


(** The condition of the [if] that opens [handle_connect], evaluated left to
    right with short circuit: [remaining_length_ < 10 || payload_[i++] != 0x00
    || ...].  The result is the condition and the value [i] is left with. *)
Fixpoint differs_from (expected : list Z) (i : Z) : M (bool * Z) :=
  match expected with
  | [] => ret (false, i)
  | c :: rest =>
      b <- payload_at i ;;
      if negb (b =? c) then ret (true, i + 1)
      else differs_from rest (i + 1)
  end.

Definition connect_header_rejected : M (bool * Z) :=
  rl <- gets remaining_length_ ;;
  if rl <? 10 then ret (true, 0)
  else differs_from [0; 4; 77; 81; 84; 84; 4] 0.

(** The statements of [handle_connect] behind [throw protocol_error()]. *)
Definition handle_connect_fields (i : Z) : M unit :=
  rl <- gets remaining_length_ ;;
  byte8 <- payload_at i ;;
  let i := i + 1 in
  keep_alive <- payload_uint16 i ;;
  let i := i + 2 in
  if rl <? i + 2 then throw remaining_length_error else
  client_id_length <- payload_uint16 i ;;
  let i := i + 2 in
  if rl <? i + client_id_length then throw remaining_length_error else
  client_id <- payload_string i client_id_length ;;
  let i := i + client_id_length in
  let clean_session := connect_flags.has_clean_session byte8 in
  wi <- (if connect_flags.has_will_flag byte8 then
           topic_name_length <- payload_uint16 i ;;
           let i := i + 2 in
           if rl <? i + topic_name_length then throw remaining_length_error else
           topic_name <- payload_string i topic_name_length ;;
           let i := i + topic_name_length in
           will_message_length <- payload_uint16 i ;;
           let i := i + 2 in
           if rl <? i + will_message_length then throw remaining_length_error else
           will_message <- payload_string i topic_name_length ;;
           let i := i + will_message_length in
           ret (Some (mk_will topic_name will_message
                        (connect_flags.has_will_retain byte8)
                        (connect_flags.will_qos byte8)), i)
         else ret (None, i)) ;;
  let w := fst wi in
  let i := snd wi in
  ui <- (if connect_flags.has_user_name_flag byte8 then
           user_name_length <- payload_uint16 i ;;
           let i := i + 2 in
           if rl <? i + user_name_length then throw remaining_length_error else
           user_name <- payload_string i user_name_length ;;
           ret (Some user_name, i + user_name_length)
         else ret (None, i)) ;;
  let user_name := fst ui in
  let i := snd ui in
  pi <- (if connect_flags.has_password_flag byte8 then
           password_length <- payload_uint16 i ;;
           let i := i + 2 in
           if rl <? i + password_length then throw remaining_length_error else
           password <- payload_string i password_length ;;
           ret (Some password, i + password_length)
         else ret (None, i)) ;;
  let password := fst pi in
  invoke H_connect (h_connect client_id user_name password w clean_session keep_alive).

(** [handle_connect]: the block of the [if] is empty and the [throw] stands
    behind it. *)
Definition handle_connect : M unit :=
  ci <- connect_header_rejected ;;
  (if fst ci then ret tt else ret tt) ;;
  (throw protocol_error : M unit) ;;
  handle_connect_fields (snd ci).

(** The loop of [handle_connack] over the sequenced index: an entry with a
    buffer is written again, an entry without one is erased. *)
Fixpoint resend (l : list store) : M (list store) :=
  match l with
  | [] => ret []
  | e :: rest =>
      match buf e with
      | Some _ =>
          write (store_bytes e) ;;
          kept <- resend rest ;;
          ret (e :: kept)
      | None => resend rest
      end
  end.

Definition handle_connack : M unit :=
  rl <- gets remaining_length_ ;;
  if negb (rl =? 2) then throw remaining_length_error else
  return_code <- payload_at 1 ;;
  (if return_code =? connect_return_code.accepted then
     cs <- gets clean_session_ ;;
     if cs then modify (set_store [])
     else
       l <- gets store_ ;;
       kept <- resend l ;;
       modify (set_store kept)
   else ret tt) ;;
  b0 <- payload_at 0 ;;
  invoke H_connack (h_connack (is_session_present b0) return_code).

Definition handle_publish : M unit :=
  rl <- gets remaining_length_ ;;
  if rl <? 2 then throw remaining_length_error else
  let i := 0 in
  topic_name_length <- payload_uint16 i ;;
  let i := i + 2 in
  if rl <? i + topic_name_length then throw remaining_length_error else
  topic_name <- payload_string i topic_name_length ;;
  let i := i + topic_name_length in
  fixed_header <- gets fixed_header_ ;;
  let qos := publish.get_qos fixed_header in
  pi <- (if qos =? qos.at_most_once then ret (None, i)
         else if qos =? qos.at_least_once then
           if rl <? i + 2 then throw remaining_length_error else
           packet_id <- payload_uint16 i ;;
           send_puback packet_id ;;
           ret (Some packet_id, i + 2)
         else if qos =? qos.exactly_once then
           if rl <? i + 2 then throw remaining_length_error else
           packet_id <- payload_uint16 i ;;
           send_pubrec packet_id ;;
           ret (Some packet_id, i + 2)
         else ret (None, i)) ;;
  let packet_id := fst pi in
  let i := snd pi in
  size <- gets (fun s => Z.of_nat (length (payload_ s))) ;;
  contents <- payload_string i (size - i) ;;
  invoke H_publish (h_publish fixed_header packet_id topic_name contents).

Definition handle_puback : M unit :=
  rl <- gets remaining_length_ ;;
  if negb (rl =? 2) then throw remaining_length_error else
  packet_id <- payload_uint16 0 ;;
  store_erase packet_id control_packet_type.puback ;;
  invoke H_puback (h_puback packet_id).

Definition handle_pubrec : M unit :=
  rl <- gets remaining_length_ ;;
  if negb (rl =? 2) then throw remaining_length_error else
  packet_id <- payload_uint16 0 ;;
  store_erase packet_id control_packet_type.pubrec ;;
  send_pubrel packet_id ;;
  invoke H_pubrec (h_pubrec packet_id).

Definition handle_pubrel : M unit :=
  rl <- gets remaining_length_ ;;
  if negb (rl =? 2) then throw remaining_length_error else
  packet_id <- payload_uint16 0 ;;
  send_pubcomp packet_id.

Definition handle_pubcomp : M unit :=
  rl <- gets remaining_length_ ;;
  if negb (rl =? 2) then throw remaining_length_error else
  packet_id <- payload_uint16 0 ;;
  store_erase packet_id control_packet_type.pubcomp ;;
  invoke H_pubcomp (h_pubcomp packet_id).

(** The loop of [handle_subscribe]; every iteration moves [i] forward by
    three or more, so the length of the payload bounds the iterations. *)
Fixpoint subscribe_entries (fuel : nat) (i : Z) (entries : list (str * Z))
    : M (list (str * Z)) :=
  match fuel with
  | O => ret entries
  | S fuel' =>
      rl <- gets remaining_length_ ;;
      if negb (i <? rl) then ret entries else
      if rl <? i + 2 then throw remaining_length_error else
      topic_length <- payload_uint16 i ;;
      let i := i + 2 in
      if rl <? i + topic_length then throw remaining_length_error else
      topic_filter <- payload_string i topic_length ;;
      let i := i + topic_length in
      b <- payload_at i ;;
      let qos := Z.land b 3 in
      subscribe_entries fuel' (i + 1) (entries ++ [(topic_filter, qos)])
  end.

Definition handle_subscribe : M unit :=
  rl <- gets remaining_length_ ;;
  if rl <? 2 then throw remaining_length_error else
  packet_id <- payload_uint16 0 ;;
  fuel <- gets (fun s => length (payload_ s)) ;;
  entries <- subscribe_entries fuel 2 [] ;;
  invoke H_subscribe (h_subscribe packet_id entries).

Definition handle_suback : M unit :=
  rl <- gets remaining_length_ ;;
  if rl <? 2 then throw remaining_length_error else
  packet_id <- payload_uint16 0 ;;
  store_erase packet_id control_packet_type.suback ;;
  p <- gets payload_ ;;
  let results :=
    map (fun c => if negb (Z.land (uchar c) 128 =? 0) then None else Some (uchar c))
        (skipn 2 p) in
  invoke H_suback (h_suback packet_id results).

Fixpoint unsubscribe_topics (fuel : nat) (i : Z) (topic_filters : list str)
    : M (list str) :=
  match fuel with
  | O => ret topic_filters
  | S fuel' =>
      rl <- gets remaining_length_ ;;
      if negb (i <? rl) then ret topic_filters else
      if rl <? i + 2 then throw remaining_length_error else
      topic_length <- payload_uint16 i ;;
      let i := i + 2 in
      if rl <? i + topic_length then throw remaining_length_error else
      topic_filter <- payload_string i topic_length ;;
      unsubscribe_topics fuel' (i + topic_length) (topic_filters ++ [topic_filter])
  end.

Definition handle_unsubscribe : M unit :=
  rl <- gets remaining_length_ ;;
  if rl <? 2 then throw remaining_length_error else
  packet_id <- payload_uint16 0 ;;
  fuel <- gets (fun s => length (payload_ s)) ;;
  topic_filters <- unsubscribe_topics fuel 2 [] ;;
  invoke H_unsubscribe (h_unsubscribe packet_id topic_filters).

Definition handle_unsuback : M unit :=
  rl <- gets remaining_length_ ;;
  if negb (rl =? 2) then throw remaining_length_error else
  packet_id <- payload_uint16 0 ;;
  store_erase packet_id control_packet_type.unsuback ;;
  invoke H_unsuback (h_unsuback packet_id).

Definition handle_pingreq : M unit :=
  rl <- gets remaining_length_ ;;
  if negb (rl =? 0) then throw remaining_length_error
  else invoke H_pingreq h_pingreq.

Definition handle_pingresp : M unit :=
  rl <- gets remaining_length_ ;;
  if negb (rl =? 0) then throw remaining_length_error
  else invoke H_pingresp h_pingresp.

Definition handle_disconnect : M unit :=
  rl <- gets remaining_length_ ;;
  if negb (rl =? 0) then throw remaining_length_error
  else invoke H_disconnect h_disconnect.

(** The [switch] of [handle_payload]. *)
Definition handle_payload : M unit :=
  fixed_header <- gets fixed_header_ ;;
  let t := get_control_packet_type fixed_header in
  if t =? control_packet_type.connect then handle_connect
  else if t =? control_packet_type.connack then handle_connack
  else if t =? control_packet_type.publish then handle_publish
  else if t =? control_packet_type.puback then handle_puback
  else if t =? control_packet_type.pubrec then handle_pubrec
  else if t =? control_packet_type.pubrel then handle_pubrel
  else if t =? control_packet_type.pubcomp then handle_pubcomp
  else if t =? control_packet_type.subscribe then handle_subscribe
  else if t =? control_packet_type.suback then handle_suback
  else if t =? control_packet_type.unsubscribe then handle_unsubscribe
  else if t =? control_packet_type.unsuback then handle_unsuback
  else if t =? control_packet_type.pingreq then handle_pingreq
  else if t =? control_packet_type.pingresp then handle_pingresp
  else if t =? control_packet_type.disconnect then handle_disconnect
  else ret tt.

(** ** The frame reader

    The bytes the socket delivers are a list.  Each [async_read] of the
    source takes the next bytes of it; when the list ends, the read completes
    with [eof] and [handle_close_or_error] calls the close handler. *)

(** [handle_control_packet_type], on the character just read. *)
Definition handle_control_packet_type (buf_ : byte) : M unit :=
  modify (set_fixed_header (uchar buf_)) ;;
  modify (set_remaining_length 0) ;;
  modify (set_remaining_length_multiplier 1).

(** One call of [handle_remaining_length], on the character just read.  The
    result says whether another byte of the length is to be read; if not,
    [payload_] has been resized to the remaining length. *)
Definition resize (n : Z) (p : str) : str :=
  firstn (Z.to_nat n) p ++ repeat x00 (Z.to_nat n - length p).

Definition handle_remaining_length (buf_ : byte) : M bool :=
  modify (fun s => set_remaining_length
            (remaining_length_ s
             + Z.land (uchar buf_) 127 * remaining_length_multiplier_ s) s) ;;
  modify (fun s => set_remaining_length_multiplier
            (remaining_length_multiplier_ s * 128) s) ;;
  m <- gets remaining_length_multiplier_ ;;
  if 128 * 128 * 128 <? m then throw remaining_length_error
  else if negb (Z.land (uchar buf_) 128 =? 0) then ret true
  else
    modify (fun s => set_payload (resize (remaining_length_ s) (payload_ s)) s) ;;
    ret false.

(** The chain of reads that decodes the remaining length: the result is the
    input behind the length, or [None] when the input ended first. *)
Fixpoint read_remaining_length (input : list byte) : M (option (list byte)) :=
  match input with
  | [] => handle_close ;; ret None
  | buf_ :: rest =>
      more <- handle_remaining_length buf_ ;;
      if more then read_remaining_length rest else ret (Some rest)
  end.

(** The remaining length of a packet whose length field is [input]: the
    state is the one [handle_control_packet_type] leaves. *)
Definition decode_remaining_length (input : list byte) : M Z :=
  modify (set_remaining_length 0) ;;
  modify (set_remaining_length_multiplier 1) ;;
  r <- read_remaining_length input ;;
  gets remaining_length_.

(** The body of a packet: [remaining_length_] bytes are read into
    [payload_], then [handle_payload] runs. *)
Definition read_payload (input : list byte) : M (option (list byte)) :=
  rl <- gets remaining_length_ ;;
  if rl =? 0 then handle_payload ;; ret (Some input)
  else if Z.of_nat (length input) <? rl then handle_close ;; ret None
  else
    modify (set_payload (firstn (Z.to_nat rl) input)) ;;
    handle_payload ;;
    ret (Some (skipn (Z.to_nat rl) input)).

(** The read loop, from [async_read_control_packet_type] on.  A packet takes
    two bytes or more, so the length of the input bounds the iterations. *)
Fixpoint read_packets (fuel : nat) (input : list byte) : M unit :=
  match fuel with
  | O => ret tt
  | S fuel' =>
      match input with
      | [] => handle_close
      | buf_ :: rest =>
          handle_control_packet_type buf_ ;;
          r <- read_remaining_length rest ;;
          match r with
          | None => ret tt
          | Some rest =>
              r <- read_payload rest ;;
              match r with
              | None => ret tt
              | Some rest => read_packets fuel' rest
              end
          end
      end
  end.

Definition receive (input : list byte) : M unit :=
  read_packets (S (length input)) input.

(** One packet with fixed header [fh] and body [body], as it stands in
    front of [handle_payload]. *)
Definition deliver (fh : Z) (body : str) : M unit :=
  modify (set_fixed_header fh) ;;
  modify (set_remaining_length (Z.of_nat (length body))) ;;
  modify (set_payload body) ;;
  handle_payload.

End Endpoint.

(** ** [class client]: the keep-alive timer

    [tim_] is a [deadline_timer].  Its state is the expiry of the pending
    [async_wait], in milliseconds, or [None] when no wait is pending;
    [expires_from_now(d)] followed by [async_wait] at time [now] makes it
    [now + d], and [cancel] completes the wait with an error, on which
    [handle_timer] does nothing.  The functions that read the clock take the
    time [now] as an argument; the members inherited from [endpoint] do not. *)
Record client := mk_client {
  base : endpoint;
  tim_ : option Z;
  keep_alive_sec_ : Z;
  ping_duration_ms_ : Z
}.

Inductive client_outcome (A : Type) :=
| COk (a : A) (c : client)
| CThrow (e : error) (c : client)
| CDiverge.
Arguments COk {A} a c.
Arguments CThrow {A} e c.
Arguments CDiverge {A}.

Definition set_base (b : endpoint) (c : client) : client :=
  mk_client b (tim_ c) (keep_alive_sec_ c) (ping_duration_ms_ c).

Definition set_tim (t : option Z) (c : client) : client :=
  mk_client (base c) t (keep_alive_sec_ c) (ping_duration_ms_ c).

(** A member function of the base class, called on a client. *)
Definition on_base {A} (m : M A) (c : client) : client_outcome A :=
  match m (base c) with
  | Ok a b => COk a (set_base b c)
  | Throw e b => CThrow e (set_base b c)
  | Diverge => CDiverge
  end.

Definition set_keep_alive_sec_ping_ms (keep_alive_sec ping_ms : Z) (c : client) : client :=
  let c := if negb (ping_duration_ms_ c =? 0) && connected_ (base c) && (ping_ms =? 0)
           then set_tim None c else c in
  mk_client (base c) (tim_ c) keep_alive_sec ping_ms.

Definition set_keep_alive_sec (keep_alive_sec : Z) (c : client) : client :=
  set_keep_alive_sec_ping_ms keep_alive_sec (keep_alive_sec * 1000 / 2) c.




(** [client::disconnect]. *)
Definition client_disconnect (c : client) : client_outcome unit :=
  if connected_ (base c) then
    let c := if negb (ping_duration_ms_ c =? 0) then set_tim None c else c in
    on_base disconnect c
  else COk tt c.

(** ** Values used in the examples *)

Definition all_handlers : handler -> bool := fun _ => true.

Definition any_contents : str -> bool := fun _ => true.

(** The endpoint the constructor leaves, with every handler set. *)
Definition new_endpoint : endpoint :=
  mk_endpoint [] false [] false None 0 0 0 [] all_handlers [] None None [] 0.



(** How often the publish handler was called with packet id [p]. *)
Definition publish_calls (p : Z) (l : list call) : nat :=
  length (filter (fun c => match c with
                           | h_publish _ (Some q) _ _ => q =? p
                           | _ => false
                           end) l).

(** A PUBLISH at QoS 2 for topic "t" with packet id 7 and payload "x". *)
Definition publish_qos2_7 : list byte :=
  [x34; x06; x00; x01; x74; x00; x07; x78].

(** A v3.1.1 CONNECT with clean session, keep alive 60 and client id "cid1". *)
Definition connect_cid1 : list byte :=
  [x10; x10; x00; x04; x4d; x51; x54; x54; x04; x02; x00; x3c;
   x00; x04; x63; x69; x64; x31].

(** A client with the will ("t", "hello"), client id "c", about to connect. *)
Definition will_t_hello : will := mk_will [x74] [x68; x65; x6c; x6c; x6f] false 0.

Definition endpoint_with_will : endpoint :=
  mk_endpoint [] true [x63] true (Some will_t_hello) 0 0 0 [] all_handlers []
    None None [] 0.

(** A store that holds every nonzero packet id. *)
Definition full_store : list store :=
  map (fun n => mk_store (Z.of_nat n) control_packet_type.puback None 0 0)
      (seq 1 (Z.to_nat 65535)).

(** ** Auxiliary definitions of the proofs *)

(** The state one call of [handle_remaining_length] leaves when it asks for
    another byte. *)
Definition after_length_byte (b : byte) (s : endpoint) : endpoint :=
  set_remaining_length_multiplier (remaining_length_multiplier_ s * 128)
    (set_remaining_length
       (remaining_length_ s + Z.land (uchar b) 127 * remaining_length_multiplier_ s) s).

(** The buffer after [finalize]: the five bytes in front of the body hold the
    fixed header and the remaining length, flush against the body. *)
Definition finalized_header (hdr : str) (fixed_header : Z) (rb : str) : str :=
  firstn (4 - length rb) hdr ++ [to_char fixed_header] ++ rb.

(** The last buffer written to the socket, and the first byte of a packet. *)
Definition last_write (s : endpoint) : str := last (socket_ s) [].

Definition first_byte (p : str) : Z := uchar (hd x00 p).

(** What a packet that carries only a packet id looks like on the wire. *)
Definition packet_id_packet (type flags packet_id : Z) : str :=
  [to_char (make_fixed_header type flags); x02;
   to_char (Z.shiftr packet_id 8); to_char (Z.land packet_id 255)].




(** The ids of the store are pairwise different and none is 0. *)
Definition unique_ids (l : list store) : Prop :=
  NoDup (store_ids l) /\ ~ In 0 (store_ids l).



(** The body, the flags and the bytes of the PUBLISH that [send_publish]
    builds; [rb] is the encoded remaining length and [dup] says whether the
    DUP bit is set. *)
Definition publish_body (topic_name : str) (qos packet_id : Z) (payload : str) : str :=
  encoded_length topic_name ++ topic_name ++
  (if (qos =? qos.at_least_once) || (qos =? qos.exactly_once)
   then [to_char (Z.shiftr packet_id 8); to_char (Z.land packet_id 255)]
   else []) ++ payload.

Definition publish_flags (qos : Z) (retain : bool) : Z :=
  uint8_t (Z.lor (if retain then Z.lor 0 1 else 0) (Z.shiftl qos 1)).

Definition publish_packet (dup : bool) (topic_name : str) (qos : Z) (retain : bool)
    (packet_id : Z) (payload : str) (rb : str) : str :=
  to_char (make_fixed_header control_packet_type.publish
             (if dup then Z.lor (publish_flags qos retain) 8
              else publish_flags qos retain))
  :: rb ++ publish_body topic_name qos packet_id payload.

(** The kind of acknowledgement a stored PUBLISH waits for. *)
Definition publish_expects (qos : Z) : Z :=
  if qos =? qos.at_least_once then control_packet_type.puback
  else control_packet_type.pubrec.

(** The two bytes of a packet id, as a packet body. *)
Definition packet_id_body (packet_id : Z) : str :=
  [to_char (Z.shiftr packet_id 8); to_char (Z.land packet_id 255)].

(** The state in which [handle_payload] finds a packet with fixed header
    [fh] and body [body]. *)
Definition framed (fh : Z) (body : str) (s : endpoint) : endpoint :=
  set_payload body
    (set_remaining_length (Z.of_nat (length body)) (set_fixed_header fh s)).

(** The calls a handler adds to the log: one if it is set, none if not. *)
Definition called (s : endpoint) (h : handler) (c : call) : list call :=
  if h_ s h then [c] else [].

(** [it->buf] as a condition: the entry has a buffer. *)
Definition has_buf (e : store) : bool :=
  match buf e with
  | Some _ => true
  | None => false
  end.

(** What [handle_publish] writes for a PUBLISH of QoS [qos] with packet id
    [packet_id], and the packet id it hands to the publish handler. *)
Definition publish_reply (qos packet_id : Z) : list str :=
  if qos =? qos.at_least_once
  then [packet_id_packet control_packet_type.puback 0 packet_id]
  else if qos =? qos.exactly_once
  then [packet_id_packet control_packet_type.pubrec 0 packet_id]
  else [].

Definition publish_packet_id (qos packet_id : Z) : option Z :=
  if (qos =? qos.at_least_once) || (qos =? qos.exactly_once)
  then Some packet_id else None.

(** The body of the CONNECT that [endpoint_with_will] sends with keep alive
    60: client id "c", will topic "t", will message "hello". *)
Definition connect_with_will_body : str :=
  [x00; x04; x4d; x51; x54; x54; x04; x06; x00; x3c;
   x00; x01; x63; x00; x01; x74; x00; x05; x68; x65; x6c; x6c; x6f].



(** An endpoint with one entry in flight, under packet id 7, and an
    endpoint whose store holds every nonzero packet id. *)
Definition in_flight_7 : endpoint :=
  mk_endpoint [] true [] false None 0 0 0 [] all_handlers [] None None
    [mk_store 7 control_packet_type.pubrec None 0 0] 0.

Definition all_in_flight : endpoint :=
  mk_endpoint [] true [] false None 0 0 0 [] all_handlers [] None None
    full_store 0.

(** An endpoint whose entry of packet id 7 is a stored PUBREL. *)
Definition awaiting_pubcomp_7 : endpoint :=
  mk_endpoint [] true [] false None 0 0 0 [] all_handlers [] None None
    [mk_store 7 control_packet_type.pubcomp (Some [x62; x02; x00; x07]) 0 4] 0.

(** Two states that differ at most in the members the frame reader sets. *)
Definition same_session (s s' : endpoint) : Prop :=
  socket_ s' = socket_ s /\ calls_ s' = calls_ s /\ store_ s' = store_ s /\
  h_ s' = h_ s /\ clean_session_ s' = clean_session_ s /\
  packet_id_master_ s' = packet_id_master_ s.

(** * Properties *)

(** ** Characters *)

Lemma uchar_range (b : byte) : 0 <= uchar b < 256.
Proof.
  unfold uchar. pose proof (Byte.to_N_bounded b). lia.
Qed.

Lemma uchar_to_char (z : Z) : uchar (to_char z) = z mod 256.
Proof.
  unfold uchar, to_char.
  assert (Hr : 0 <= z mod 256 < 256) by (apply Z.mod_pos_bound; lia).
  destruct (Byte.of_N (Z.to_N (z mod 256))) as [b|] eqn:E.
  - apply Byte.to_of_N in E. rewrite E. lia.
  - apply Byte.of_N_None_iff in E. lia.
Qed.

Lemma to_char_uchar (b : byte) : to_char (uchar b) = b.
Proof.
  unfold to_char, uchar.
  pose proof (Byte.to_N_bounded b) as Hb.
  rewrite Z.mod_small by lia.
  rewrite N2Z.id, Byte.of_to_N. reflexivity.
Qed.

Lemma uchar_small (z : Z) : 0 <= z < 256 -> uchar (to_char z) = z.
Proof.
  intros H. rewrite uchar_to_char. apply Z.mod_small. exact H.
Qed.

(** Masks and shifts by constants, as arithmetic. *)

Lemma land_127 (z : Z) : Z.land z 127 = z mod 128.
Proof. change 127 with (Z.ones 7). rewrite Z.land_ones by lia. reflexivity. Qed.

Lemma land_255 (z : Z) : Z.land z 255 = z mod 256.
Proof. change 255 with (Z.ones 8). rewrite Z.land_ones by lia. reflexivity. Qed.

Lemma shiftr_7 (z : Z) : Z.shiftr z 7 = z / 128.
Proof. rewrite Z.shiftr_div_pow2 by lia. reflexivity. Qed.

Lemma shiftr_8 (z : Z) : Z.shiftr z 8 = z / 256.
Proof. rewrite Z.shiftr_div_pow2 by lia. reflexivity. Qed.

Lemma shiftr_14 (z : Z) : Z.shiftr z 14 = z / 16384.
Proof. rewrite Z.shiftr_div_pow2 by lia. reflexivity. Qed.

Lemma shiftl_8 (z : Z) : Z.shiftl z 8 = z * 256.
Proof. rewrite Z.shiftl_mul_pow2 by lia. reflexivity. Qed.

(** A bit that lies above a number can be added to it with [Z.lor]. *)
Lemma lor_high_bit (x : Z) (n : Z) :
  0 <= n -> 0 <= x < 2 ^ n -> Z.lor x (2 ^ n) = x + 2 ^ n.
Proof.
  intros Hn Hx.
  rewrite <- Z.add_lor_land.
  assert (E : Z.land x (2 ^ n) = 0).
  { apply Z.bits_inj'. intros k Hk.
    rewrite Z.land_spec, Z.bits_0, Z.pow2_bits_eqb by lia.
    destruct (Z.eqb_spec n k) as [->|Hne].
    - rewrite andb_true_r.
      destruct (Z.eq_dec x 0) as [->|Hx0]; [apply Z.bits_0|].
      apply Z.bits_above_log2; [lia|].
      apply Z.log2_lt_pow2; lia.
    - apply andb_false_r. }
  rewrite E. lia.
Qed.

Lemma lor_128 (x : Z) : 0 <= x < 128 -> Z.lor x 128 = x + 128.
Proof. intros H. apply (lor_high_bit x 7); lia. Qed.

Lemma land_128_continuation (x : Z) :
  0 <= x < 128 -> Z.land (x + 128) 128 = 128.
Proof.
  intros H. rewrite <- lor_128 by exact H.
  rewrite Z.land_lor_distr_l.
  change 128 with (2 ^ 7) at 1 2 3.
  rewrite Z.land_diag.
  assert (E : Z.land x (2 ^ 7) = 0).
  { pose proof (lor_high_bit x 7 ltac:(lia) ltac:(lia)) as L.
    pose proof (Z.add_lor_land x (2 ^ 7)). lia. }
  rewrite E. reflexivity.
Qed.

Lemma land_128_final (x : Z) : 0 <= x < 128 -> Z.land x 128 = 0.
Proof.
  intros H.
  pose proof (lor_high_bit x 7 ltac:(lia) ltac:(lia)) as L.
  pose proof (Z.add_lor_land x (2 ^ 7)) as A.
  change (2 ^ 7) with 128 in *. lia.
Qed.

Lemma make_uint16_t_spec (b1 b2 : Z) :
  0 <= b1 < 256 -> 0 <= b2 < 256 -> make_uint16_t b1 b2 = b1 * 256 + b2.
Proof.
  intros H1 H2. unfold make_uint16_t.
  rewrite !land_255, !Z.mod_small, shiftl_8 by lia.
  rewrite <- Z.add_lor_land.
  assert (E : Z.land (b1 * 256) b2 = 0).
  { apply Z.bits_inj'. intros k Hk. rewrite Z.land_spec, Z.bits_0.
    destruct (Z.ltb_spec k 8).
    - replace (b1 * 256) with (b1 * 2 ^ 8) by lia.
      rewrite Z.mul_pow2_bits_low by lia. reflexivity.
    - destruct (Z.eq_dec b2 0) as [->|Hb]; [rewrite Z.bits_0; apply andb_false_r|].
      rewrite (Z.bits_above_log2 b2 k); [apply andb_false_r|lia|].
      apply Z.lt_le_trans with 8; [|lia].
      apply Z.log2_lt_pow2; lia. }
  rewrite E. lia.
Qed.

(** The two bytes of a packet id in a packet read back as the packet id. *)
Lemma make_uint16_t_bytes (n : Z) :
  0 <= n < 65536 ->
  make_uint16_t (uchar (to_char (Z.shiftr n 8))) (uchar (to_char (Z.land n 255))) = n.
Proof.
  intros H. rewrite shiftr_8, land_255, !uchar_to_char.
  rewrite make_uint16_t_spec by (apply Z.mod_pos_bound; lia).
  rewrite Z.mod_mod by lia.
  rewrite (Z.mod_small (n / 256)) by (split; [apply Z.div_pos; lia | apply Z.div_lt_upper_bound; lia]).
  pose proof (Z.div_mod n 256 ltac:(lia)). lia.
Qed.

(** ** Running a computation *)

Ltac unfold_m :=
  unfold bind, ret, throw, get, gets, modify, when, write, invoke in *.

Lemma bind_ok {A B} (m : M A) (k : A -> M B) (s s' : endpoint) (a : A) :
  m s = Ok a s' -> bind m k s = k a s'.
Proof. intros H. unfold bind. rewrite H. reflexivity. Qed.

Lemma bind_throw {A B} (m : M A) (k : A -> M B) (s s' : endpoint) (e : error) :
  m s = Throw e s' -> bind m k s = Throw e s'.
Proof. intros H. unfold bind. rewrite H. reflexivity. Qed.


(** ** The remaining length (C2) *)

Lemma handle_remaining_length_more (b : byte) (s : endpoint) :
  remaining_length_multiplier_ s * 128 <= 128 * 128 * 128 ->
  Z.land (uchar b) 128 <> 0 ->
  handle_remaining_length b s = Ok true (after_length_byte b s).
Proof.
  intros Hm Hc. unfold handle_remaining_length. unfold_m. cbn.
  destruct (Z.ltb_spec 2097152 (remaining_length_multiplier_ s * 128)); [lia|].
  apply Z.eqb_neq in Hc. rewrite Hc. reflexivity.
Qed.

Lemma handle_remaining_length_last (b : byte) (s : endpoint) :
  remaining_length_multiplier_ s * 128 <= 128 * 128 * 128 ->
  Z.land (uchar b) 128 = 0 ->
  handle_remaining_length b s =
    Ok false (set_payload
                (resize (remaining_length_ (after_length_byte b s)) (payload_ s))
                (after_length_byte b s)).
Proof.
  intros Hm Hc. unfold handle_remaining_length. unfold_m. cbn.
  destruct (Z.ltb_spec 2097152 (remaining_length_multiplier_ s * 128)); [lia|].
  rewrite Hc. reflexivity.
Qed.

Lemma handle_remaining_length_overflow (b : byte) (s : endpoint) :
  128 * 128 * 128 < remaining_length_multiplier_ s * 128 ->
  handle_remaining_length b s = Throw remaining_length_error (after_length_byte b s).
Proof.
  intros Hm. unfold handle_remaining_length. unfold_m. cbn.
  destruct (Z.ltb_spec 2097152 (remaining_length_multiplier_ s * 128)); [|lia].
  reflexivity.
Qed.

(** Whatever the fourth byte of the length is, [handle_remaining_length]
    throws on it: the multiplier is compared after it has been multiplied. *)
Lemma fourth_length_byte_throws (b1 b2 b3 b4 : byte) (rest : list byte) (s : endpoint) :
  Z.land (uchar b1) 128 <> 0 ->
  Z.land (uchar b2) 128 <> 0 ->
  Z.land (uchar b3) 128 <> 0 ->
  exists s', decode_remaining_length (b1 :: b2 :: b3 :: b4 :: rest) s
             = Throw remaining_length_error s'.
Proof.
  intros H1 H2 H3. unfold decode_remaining_length.
  eexists.
  erewrite bind_ok by (unfold modify; reflexivity).
  erewrite bind_ok by (unfold modify; reflexivity).
  apply bind_throw. cbn [read_remaining_length].
  erewrite bind_ok by (apply handle_remaining_length_more; [cbn; lia | exact H1]).
  cbn iota.
  erewrite bind_ok by (apply handle_remaining_length_more; [cbn; lia | exact H2]).
  cbn iota.
  erewrite bind_ok by (apply handle_remaining_length_more; [cbn; lia | exact H3]).
  cbn iota.
  apply bind_throw. apply handle_remaining_length_overflow. cbn. lia.
Qed.

Lemma uchar_continuation (x : Z) :
  0 <= x < 128 -> Z.land (uchar (to_char (Z.lor x 128))) 128 <> 0.
Proof.
  intros H. rewrite lor_128 by exact H.
  rewrite uchar_small by lia. rewrite land_128_continuation by exact H. lia.
Qed.

Lemma mod_128_range (z : Z) : 0 <= z mod 128 < 128.
Proof. apply Z.mod_pos_bound. lia. Qed.

(** C2, as the code has it: every remaining length that takes four bytes,
    that is every value from 2,097,152 to 268,435,455, makes the decoder
    throw [remaining_length_error] on its fourth byte, although that byte
    carries no continuation bit. *)
Theorem remaining_length_four_bytes_rejected (v : Z) (bs : str) (s : endpoint) :
  2097152 <= v <= 268435455 ->
  remaining_bytes v = Some bs ->
  length bs = 4%nat /\
  exists s', decode_remaining_length bs s = Throw remaining_length_error s'.
Proof.
  intros Hv Hb. unfold remaining_bytes in Hb.
  destruct (Z.ltb_spec v 0); [lia|].
  destruct (Z.ltb_spec v 128); [lia|].
  destruct (Z.ltb_spec v 16384); [lia|].
  destruct (Z.ltb_spec v 2097152); [lia|].
  destruct (Z.ltb_spec v 268435456); [|lia].
  injection Hb as <-. split; [reflexivity|].
  apply fourth_length_byte_throws; rewrite land_127;
    apply uchar_continuation, mod_128_range.
Qed.

Lemma remaining_length_four_bytes_rejected_witness :
  length [xff; xff; xff; x7f] = 4%nat /\
  exists s', decode_remaining_length [xff; xff; xff; x7f] new_endpoint
             = Throw remaining_length_error s'.
Proof.
  apply (remaining_length_four_bytes_rejected 268435455); [lia | reflexivity].
Defined.

(** The lengths of one, two and three bytes, on any bytes. *)
Lemma decode_one_byte (b1 : byte) (s : endpoint) :
  Z.land (uchar b1) 128 = 0 ->
  exists s', decode_remaining_length [b1] s = Ok (Z.land (uchar b1) 127) s' /\
             remaining_length_ s' = Z.land (uchar b1) 127.
Proof.
  intros H1. unfold decode_remaining_length. eexists.
  erewrite bind_ok by (unfold modify; reflexivity).
  erewrite bind_ok by (unfold modify; reflexivity).
  cbn [read_remaining_length].
  erewrite bind_ok.
  2:{ erewrite bind_ok.
      2:{ apply handle_remaining_length_last; [cbn; lia | exact H1]. }
      cbn iota. reflexivity. }
  unfold gets. cbn.
  replace (Z.land (uchar b1) 127 * 1) with (Z.land (uchar b1) 127) by lia.
  split; [reflexivity | cbn; lia].
Qed.

Lemma decode_two_bytes (b1 b2 : byte) (s : endpoint) :
  Z.land (uchar b1) 128 <> 0 ->
  Z.land (uchar b2) 128 = 0 ->
  let v := Z.land (uchar b1) 127 + Z.land (uchar b2) 127 * 128 in
  exists s', decode_remaining_length [b1; b2] s = Ok v s' /\ remaining_length_ s' = v.
Proof.
  intros H1 H2 v. unfold decode_remaining_length. eexists.
  erewrite bind_ok by (unfold modify; reflexivity).
  erewrite bind_ok by (unfold modify; reflexivity).
  cbn [read_remaining_length].
  erewrite bind_ok.
  2:{ erewrite bind_ok.
      2:{ apply handle_remaining_length_more; [cbn; lia | exact H1]. }
      cbn iota.
      erewrite bind_ok.
      2:{ apply handle_remaining_length_last; [cbn; lia | exact H2]. }
      cbn iota. reflexivity. }
  unfold gets. cbn.
  replace (Z.land (uchar b1) 127 * 1 + Z.land (uchar b2) 127 * 128) with v
    by (unfold v; lia).
  split; [reflexivity | unfold v; cbn; lia].
Qed.

Lemma decode_three_bytes (b1 b2 b3 : byte) (s : endpoint) :
  Z.land (uchar b1) 128 <> 0 ->
  Z.land (uchar b2) 128 <> 0 ->
  Z.land (uchar b3) 128 = 0 ->
  let v := Z.land (uchar b1) 127 + Z.land (uchar b2) 127 * 128
           + Z.land (uchar b3) 127 * 16384 in
  exists s', decode_remaining_length [b1; b2; b3] s = Ok v s' /\ remaining_length_ s' = v.
Proof.
  intros H1 H2 H3 v. unfold decode_remaining_length. eexists.
  erewrite bind_ok by (unfold modify; reflexivity).
  erewrite bind_ok by (unfold modify; reflexivity).
  cbn [read_remaining_length].
  erewrite bind_ok.
  2:{ erewrite bind_ok.
      2:{ apply handle_remaining_length_more; [cbn; lia | exact H1]. }
      cbn iota.
      erewrite bind_ok.
      2:{ apply handle_remaining_length_more; [cbn; lia | exact H2]. }
      cbn iota.
      erewrite bind_ok.
      2:{ apply handle_remaining_length_last; [cbn; lia | exact H3]. }
      cbn iota. reflexivity. }
  unfold gets. cbn.
  replace (Z.land (uchar b1) 127 * 1 + Z.land (uchar b2) 127 * 128
           + Z.land (uchar b3) 127 * 16384) with v by (unfold v; lia).
  split; [reflexivity | unfold v; cbn; lia].
Qed.

Lemma uchar_final (x : Z) : 0 <= x < 128 -> Z.land (uchar (to_char x)) 128 = 0.
Proof.
  intros H. rewrite uchar_small by lia. apply land_128_final. exact H.
Qed.

Lemma uchar_low7 (x : Z) : 0 <= x < 128 -> Z.land (uchar (to_char (Z.lor x 128))) 127 = x.
Proof.
  intros H. rewrite lor_128, uchar_small, land_127 by lia.
  Z.div_mod_to_equations; lia.
Qed.

(** The values the decoder does accept: a remaining length below 2,097,152,
    in one to three bytes, decodes to itself. *)
Lemma remaining_length_below_2097152 (v : Z) (bs : str) (s : endpoint) :
  0 <= v < 2097152 ->
  remaining_bytes v = Some bs ->
  exists s', decode_remaining_length bs s = Ok v s' /\ remaining_length_ s' = v.
Proof.
  intros Hv Hb. unfold remaining_bytes in Hb.
  destruct (Z.ltb_spec v 0); [lia|].
  destruct (Z.ltb_spec v 128).
  { injection Hb as <-.
    destruct (decode_one_byte (to_char v) s) as [s' D].
    { apply uchar_final. lia. }
    rewrite uchar_small, land_127, Z.mod_small in D by lia.
    exists s'. exact D. }
  destruct (Z.ltb_spec v 16384).
  { injection Hb as <-. rewrite land_127, shiftr_7.
    assert (Hq : 0 <= v / 128 < 128) by (Z.div_mod_to_equations; lia).
    destruct (decode_two_bytes (to_char (Z.lor (v mod 128) 128)) (to_char (v / 128)) s)
      as [s' D].
    { apply uchar_continuation, mod_128_range. }
    { apply uchar_final, Hq. }
    rewrite uchar_low7 in D by apply mod_128_range.
    rewrite uchar_small, land_127, (Z.mod_small (v / 128)) in D by lia.
    replace (v mod 128 + v / 128 * 128) with v in D by (Z.div_mod_to_equations; lia).
    exists s'. exact D. }
  destruct (Z.ltb_spec v 2097152); [|lia].
  injection Hb as <-. rewrite !land_127, shiftr_7, shiftr_14.
  assert (Hq : 0 <= v / 16384 < 128) by (Z.div_mod_to_equations; lia).
  destruct (decode_three_bytes (to_char (Z.lor (v mod 128) 128))
              (to_char (Z.lor ((v / 128) mod 128) 128)) (to_char (v / 16384)) s)
    as [s' D].
  { apply uchar_continuation, mod_128_range. }
  { apply uchar_continuation, mod_128_range. }
  { apply uchar_final, Hq. }
  rewrite !uchar_low7 in D by apply mod_128_range.
  rewrite uchar_small, land_127, (Z.mod_small (v / 16384)) in D by lia.
  replace (v mod 128 + (v / 128) mod 128 * 128 + v / 16384 * 16384) with v in D
    by (Z.div_mod_to_equations; lia).
  exists s'. exact D.
Qed.

(** ** The CONNECT decoder (C1) *)

Lemma payload_at_ok (i : Z) (s : endpoint) :
  0 <= i < Z.of_nat (length (payload_ s)) ->
  exists b, payload_at i s = Ok b s.
Proof.
  intros H. unfold payload_at.
  destruct (nth_error (payload_ s) (Z.to_nat i)) as [b|] eqn:E.
  - eexists. reflexivity.
  - apply nth_error_None in E. lia.
Qed.

(** The condition of the [if] reads inside the payload and changes nothing. *)
Lemma differs_from_ok (expected : list Z) (i : Z) (s : endpoint) :
  0 <= i ->
  i + Z.of_nat (length expected) <= Z.of_nat (length (payload_ s)) ->
  exists r, differs_from expected i s = Ok r s.
Proof.
  revert i. induction expected as [|c rest IH]; intros i Hi Hlen.
  - eexists. reflexivity.
  - cbn [length] in Hlen. cbn [differs_from].
    destruct (payload_at_ok i s ltac:(lia)) as [b Hb].
    erewrite bind_ok by exact Hb.
    destruct (negb (b =? c)).
    + eexists. reflexivity.
    + apply IH; lia.
Qed.

Lemma connect_header_rejected_ok (s : endpoint) :
  remaining_length_ s = Z.of_nat (length (payload_ s)) ->
  exists r, connect_header_rejected s = Ok r s.
Proof.
  intros Hrl. unfold connect_header_rejected.
  erewrite bind_ok by (unfold gets; reflexivity).
  destruct (Z.ltb_spec (remaining_length_ s) 10).
  - eexists. reflexivity.
  - apply differs_from_ok; cbn [length]; lia.
Qed.

(** Whatever the payload is, [handle_connect] throws [protocol_error]: the
    outcome of the comparison is not used. *)
Lemma handle_connect_throws (s : endpoint) :
  remaining_length_ s = Z.of_nat (length (payload_ s)) ->
  handle_connect s = Throw protocol_error s.
Proof.
  intros Hrl. unfold handle_connect.
  destruct (connect_header_rejected_ok s Hrl) as [r Hr].
  erewrite bind_ok by exact Hr.
  destruct (fst r); reflexivity.
Qed.

(** C1, as the code has it: every CONNECT frame makes the decoder throw
    [protocol_error] without calling the connect handler, whatever its body
    is; so does the well-formed frame [connect_cid1], read from the socket. *)
Theorem handle_connect_throws_on_every_frame :
  (forall (body : str) (s : endpoint),
     exists s', deliver 16 body s = Throw protocol_error s' /\
                calls_ s' = calls_ s) /\
  (exists s', receive connect_cid1 new_endpoint = Throw protocol_error s' /\
              calls_ s' = []).
Proof.
  split.
  - intros body s. eexists. unfold deliver.
    erewrite bind_ok by (unfold modify; reflexivity).
    erewrite bind_ok by (unfold modify; reflexivity).
    erewrite bind_ok by (unfold modify; reflexivity).
    unfold handle_payload.
    erewrite bind_ok by (unfold gets; reflexivity).
    cbn [fixed_header_ set_payload set_remaining_length set_fixed_header].
    change (get_control_packet_type 16 =? control_packet_type.connect) with true.
    cbn iota.
    split; [apply handle_connect_throws; reflexivity | reflexivity].
  - eexists. split; vm_compute; reflexivity.
Qed.

(** ** [send_buffer::finalize] *)

Lemma remaining_bytes_length (v : Z) (rb : str) :
  remaining_bytes v = Some rb -> (1 <= length rb <= 4)%nat.
Proof.
  unfold remaining_bytes. intros H.
  repeat match type of H with
         | (if ?c then _ else _) = _ => destruct c
         end;
    try discriminate; injection H as <-; cbn [length]; lia.
Qed.

Lemma finalized_header_length (hdr : str) (fh : Z) (rb : str) :
  length hdr = 5%nat -> (1 <= length rb <= 4)%nat ->
  length (finalized_header hdr fh rb) = 5%nat.
Proof.
  intros Hh Hr. unfold finalized_header.
  rewrite !length_app, length_firstn. cbn [length]. lia.
Qed.

Lemma finalize_spec (hdr body : str) (fh : Z) (rb : str) (s : endpoint) :
  length hdr = 5%nat ->
  remaining_bytes (Z.of_nat (length body)) = Some rb ->
  exists ps,
    finalize (hdr ++ body) fh s = Ok (finalized_header hdr fh rb ++ body, ps) s /\
    packet_of (finalized_header hdr fh rb ++ body) ps = to_char fh :: rb ++ body.
Proof.
  intros Hh Hrb. pose proof (remaining_bytes_length _ _ Hrb) as Hl.
  unfold finalize, payload_position_.
  rewrite length_app, Hh.
  replace (5 + length body - 5)%nat with (length body) by lia.
  rewrite Hrb. unfold ret, packet_of, finalized_header, replace.
  destruct hdr as [|h0 [|h1 [|h2 [|h3 [|h4 [|]]]]]]; try discriminate.
  destruct rb as [|r0 [|r1 [|r2 [|r3 [|]]]]]; cbn [length] in Hl; try lia;
    cbn; eexists; (split; [reflexivity|]); cbn;
    rewrite firstn_all; reflexivity.
Qed.

(** ** The fixed headers of the packets sent (C7) *)

Lemma last_write_app (s : endpoint) (l : list str) (p : str) :
  socket_ s = l ++ [p] -> last_write s = p.
Proof. intros H. unfold last_write. rewrite H. apply last_last. Qed.

(** [finalize] on a buffer that holds nothing but a packet id. *)
Lemma finalize_packet_id (fh packet_id : Z) (s : endpoint) :
  exists b ps,
    finalize ((new_send_buffer ++ [to_char (Z.shiftr packet_id 8)])
              ++ [to_char (Z.land packet_id 255)]) fh s = Ok (b, ps) s /\
    packet_of b ps = [to_char fh; x02; to_char (Z.shiftr packet_id 8);
                      to_char (Z.land packet_id 255)].
Proof.
  destruct (finalize_spec new_send_buffer
              [to_char (Z.shiftr packet_id 8); to_char (Z.land packet_id 255)]
              fh [x02] s eq_refl eq_refl) as [ps [F P]].
  eexists. exists ps. split; [exact F | exact P].
Qed.

Lemma first_byte_packet_id_packet (type flags packet_id : Z) :
  first_byte (packet_id_packet type flags packet_id)
  = make_fixed_header type flags mod 256.
Proof. unfold first_byte, packet_id_packet. cbn [hd]. apply uchar_to_char. Qed.

Lemma send_puback_eq (id : Z) (s : endpoint) :
  send_puback id s
  = Ok tt (set_socket (socket_ s ++ [packet_id_packet control_packet_type.puback 0 id]) s).
Proof.
  destruct (finalize_packet_id (make_fixed_header control_packet_type.puback 0) id s)
    as [b [ps [F P]]].
  unfold send_puback. cbv zeta. erewrite bind_ok by exact F.
  cbn [fst snd]. rewrite P. reflexivity.
Qed.

Lemma send_pubrec_eq (id : Z) (s : endpoint) :
  send_pubrec id s
  = Ok tt (set_socket (socket_ s ++ [packet_id_packet control_packet_type.pubrec 0 id]) s).
Proof.
  destruct (finalize_packet_id (make_fixed_header control_packet_type.pubrec 0) id s)
    as [b [ps [F P]]].
  unfold send_pubrec. cbv zeta. erewrite bind_ok by exact F.
  cbn [fst snd]. rewrite P. reflexivity.
Qed.

Lemma send_pubcomp_eq (id : Z) (s : endpoint) :
  send_pubcomp id s
  = Ok tt (set_socket (socket_ s ++ [packet_id_packet control_packet_type.pubcomp 0 id]) s).
Proof.
  destruct (finalize_packet_id (make_fixed_header control_packet_type.pubcomp 0) id s)
    as [b [ps [F P]]].
  unfold send_pubcomp. cbv zeta. erewrite bind_ok by exact F.
  cbn [fst snd]. rewrite P. reflexivity.
Qed.

(** [send_pubrel] writes the PUBREL and stores what it wrote. *)
Lemma send_pubrel_spec (id : Z) (s : endpoint) :
  exists e,
    send_pubrel id s
    = Ok tt (set_store (emplace e (store_ s))
               (set_socket
                  (socket_ s ++ [packet_id_packet control_packet_type.pubrel 2 id]) s)) /\
    packet_id e = id /\
    expected_control_packet_type e = control_packet_type.pubcomp /\
    buf e <> None /\
    store_bytes e = packet_id_packet control_packet_type.pubrel 2 id.
Proof.
  destruct (finalize_packet_id (make_fixed_header control_packet_type.pubrel 2) id s)
    as [b [[p n] [F P]]].
  exists (mk_store id control_packet_type.pubcomp (Some b) p n).
  split; [|repeat split; [discriminate | exact P]].
  unfold send_pubrel. cbv zeta. erewrite bind_ok by exact F.
  cbn [fst snd]. rewrite P. reflexivity.
Qed.

(** The acknowledgements and PUBREL carry the flags the source passes to
    [make_fixed_header]: PUBACK, PUBREC and PUBCOMP 0000, PUBREL 0010. *)
Lemma send_puback_header (packet_id : Z) (s : endpoint) :
  exists s', send_puback packet_id s = Ok tt s' /\
    low_nibble (first_byte (last_write s')) = 0.
Proof.
  eexists. split; [apply send_puback_eq|].
  erewrite last_write_app by reflexivity.
  rewrite first_byte_packet_id_packet. reflexivity.
Qed.

Lemma send_pubrec_header (packet_id : Z) (s : endpoint) :
  exists s', send_pubrec packet_id s = Ok tt s' /\
    low_nibble (first_byte (last_write s')) = 0.
Proof.
  eexists. split; [apply send_pubrec_eq|].
  erewrite last_write_app by reflexivity.
  rewrite first_byte_packet_id_packet. reflexivity.
Qed.

Lemma send_pubcomp_header (packet_id : Z) (s : endpoint) :
  exists s', send_pubcomp packet_id s = Ok tt s' /\
    low_nibble (first_byte (last_write s')) = 0.
Proof.
  eexists. split; [apply send_pubcomp_eq|].
  erewrite last_write_app by reflexivity.
  rewrite first_byte_packet_id_packet. reflexivity.
Qed.

Lemma send_pubrel_header (packet_id : Z) (s : endpoint) :
  exists s', send_pubrel packet_id s = Ok tt s' /\
    low_nibble (first_byte (last_write s')) = 2.
Proof.
  destruct (send_pubrel_spec packet_id s) as [e [E _]].
  eexists. split; [exact E|].
  erewrite last_write_app by reflexivity.
  rewrite first_byte_packet_id_packet. reflexivity.
Qed.

(** C7, as the code has it: the UNSUBACK that [send_unsuback] writes has
    the first byte 0xB2, so its low nibble is 0010 and not 0000. *)
Theorem send_unsuback_low_nibble (packet_id : Z) (s : endpoint) :
  exists s', send_unsuback packet_id s = Ok tt s' /\
    socket_ s' = socket_ s ++ [[xb2; x02; to_char (Z.shiftr packet_id 8);
                                to_char (Z.land packet_id 255)]] /\
    low_nibble (first_byte (last_write s')) = 2.
Proof.
  unfold send_unsuback. cbv zeta.
  destruct (finalize_packet_id (make_fixed_header control_packet_type.unsuback 2)
              packet_id s) as [b [ps [F P]]].
  eexists. erewrite bind_ok by exact F. cbn [fst snd]. rewrite P.
  split; [reflexivity|]. split; [reflexivity|].
  erewrite last_write_app by reflexivity. reflexivity.
Qed.

(** ** The packet id allocator (C10, C6) *)

Lemma is_unique_spec (id : Z) (l : list store) :
  is_unique id l = true <-> id <> 0 /\ ~ In id (store_ids l).
Proof.
  unfold is_unique, store_ids.
  destruct (Z.eqb_spec id 0) as [->|Hne].
  - split; [discriminate | intros [H _]; contradiction].
  - rewrite forallb_forall. split.
    + intros H. split; [exact Hne|]. intros Hin.
      apply in_map_iff in Hin. destruct Hin as [e [He Hin]].
      specialize (H e Hin). rewrite He, Z.eqb_refl in H. discriminate.
    + intros [_ H] e Hin.
      destruct (Z.eqb_spec (packet_id e) id) as [E|]; [|reflexivity].
      exfalso. apply H. apply in_map_iff. exists e. split; assumption.
Qed.

Lemma is_unique_false (id : Z) (l : list store) :
  is_unique id l = false <-> id = 0 \/ In id (store_ids l).
Proof.
  split.
  - intros H. destruct (Z.eq_dec id 0) as [|Hne]; [left; assumption|].
    destruct (in_dec Z.eq_dec id (store_ids l)) as [|Hn]; [right; assumption|].
    assert (U : is_unique id l = true) by (apply is_unique_spec; split; assumption).
    congruence.
  - intros H. destruct (is_unique id l) eqn:U; [|reflexivity].
    apply is_unique_spec in U. tauto.
Qed.

Lemma uint16_t_range (z : Z) : 0 <= uint16_t z < 65536.
Proof. unfold uint16_t. apply Z.mod_pos_bound. lia. Qed.

(** An id the loop returns is a 16-bit id that [is_unique_packet_id] accepts. *)
Lemma packet_id_loop_sound (fuel : nat) (master id : Z) (l : list store) :
  packet_id_loop fuel master l = Some id ->
  is_unique id l = true /\ 0 <= id < 65536.
Proof.
  revert master. induction fuel as [|fuel IH]; intros master H; [discriminate|].
  cbn [packet_id_loop] in H.
  destruct (is_unique (uint16_t (master + 1)) l) eqn:U.
  - injection H as <-. split; [exact U | apply uint16_t_range].
  - apply IH in H. exact H.
Qed.

(** More iterations do not change a result that is there. *)
Lemma packet_id_loop_more (fuel fuel' : nat) (master id : Z) (l : list store) :
  packet_id_loop fuel master l = Some id ->
  (fuel <= fuel')%nat ->
  packet_id_loop fuel' master l = Some id.
Proof.
  revert fuel' master. induction fuel as [|fuel IH]; intros fuel' master H Hle;
    [discriminate|].
  destruct fuel' as [|fuel']; [lia|].
  cbn [packet_id_loop] in *.
  destruct (is_unique (uint16_t (master + 1)) l); [exact H|].
  apply IH; [exact H | lia].
Qed.

(** If the counter reaches an unused id after [k + 1] increments, the loop
    returns within [k + 1] iterations. *)
Lemma packet_id_loop_reaches (k : nat) (master : Z) (l : list store) :
  is_unique (uint16_t (master + Z.of_nat (S k))) l = true ->
  exists id, packet_id_loop (S k) master l = Some id.
Proof.
  revert master. induction k as [|k IH]; intros master H.
  - cbn [packet_id_loop]. change (Z.of_nat 1) with 1 in H. rewrite H.
    eexists. reflexivity.
  - cbn [packet_id_loop].
    destruct (is_unique (uint16_t (master + 1)) l) eqn:U.
    + eexists. reflexivity.
    + apply IH.
      replace (uint16_t (uint16_t (master + 1) + Z.of_nat (S k)))
        with (uint16_t (master + Z.of_nat (S (S k)))); [exact H|].
      unfold uint16_t. rewrite Z.add_mod_idemp_l by lia. f_equal. lia.
Qed.

(** When every nonzero id is taken, no number of iterations is enough. *)
Lemma packet_id_loop_never (fuel : nat) (master : Z) (l : list store) :
  (forall u, 1 <= u <= 65535 -> In u (store_ids l)) ->
  packet_id_loop fuel master l = None.
Proof.
  intros Hfull. revert master. induction fuel as [|fuel IH]; intros master;
    [reflexivity|].
  cbn [packet_id_loop].
  assert (U : is_unique (uint16_t (master + 1)) l = false).
  { apply is_unique_false. pose proof (uint16_t_range (master + 1)).
    destruct (Z.eq_dec (uint16_t (master + 1)) 0); [left; assumption|].
    right. apply Hfull. lia. }
  rewrite U. apply IH.
Qed.

Lemma counter_period_eq : counter_period = S (Z.to_nat 65535).
Proof. unfold counter_period. rewrite <- Z2Nat.inj_succ by lia. reflexivity. Qed.

(** When some nonzero id is unused, the loop returns within one period of
    the counter. *)
Lemma packet_id_loop_within_period (master : Z) (l : list store) (u : Z) :
  1 <= u <= 65535 -> ~ In u (store_ids l) ->
  exists id, packet_id_loop counter_period master l = Some id.
Proof.
  intros Hu Hn.
  set (k := Z.to_nat ((u - master - 1) mod 65536)).
  assert (Hk : 0 <= (u - master - 1) mod 65536 < 65536)
    by (apply Z.mod_pos_bound; lia).
  destruct (packet_id_loop_reaches k master l) as [id Hid].
  - replace (uint16_t (master + Z.of_nat (S k))) with u.
    + apply is_unique_spec. split; [lia | exact Hn].
    + unfold uint16_t, k. rewrite Nat2Z.inj_succ, Z2Nat.id by lia.
      replace (master + Z.succ ((u - master - 1) mod 65536))
        with ((u - master - 1) mod 65536 + (master + 1)) by lia.
      rewrite Z.add_mod_idemp_l by lia.
      replace (u - master - 1 + (master + 1)) with u by lia.
      symmetry. apply Z.mod_small. lia.
  - exists id. apply packet_id_loop_more with (S k); [exact Hid|].
    rewrite counter_period_eq. unfold k. apply le_n_S.
    apply Z2Nat.inj_le; lia.
Qed.

(** A loop that has not returned has found no unique id on its way. *)
Lemma packet_id_loop_none (fuel : nat) (master : Z) (l : list store) :
  packet_id_loop fuel master l = None ->
  forall i, (1 <= i <= fuel)%nat ->
            is_unique (uint16_t (master + Z.of_nat i)) l = false.
Proof.
  revert master. induction fuel as [|fuel IH]; intros master H i Hi; [lia|].
  cbn [packet_id_loop] in H.
  destruct (is_unique (uint16_t (master + 1)) l) eqn:U; [discriminate|].
  destruct (Nat.eq_dec i 1) as [->|Hne]; [exact U|].
  specialize (IH _ H (i - 1)%nat ltac:(lia)).
  replace (uint16_t (master + Z.of_nat i))
    with (uint16_t (uint16_t (master + 1) + Z.of_nat (i - 1))); [exact IH|].
  unfold uint16_t. rewrite Z.add_mod_idemp_l by lia. f_equal. lia.
Qed.

(** Within one period the counter takes no value twice. *)
Lemma counter_values_NoDup (master : Z) (n : nat) :
  Z.of_nat n <= 65536 ->
  NoDup (map (fun i => uint16_t (master + Z.of_nat i)) (seq 1 n)).
Proof.
  intros Hn. apply NoDup_map_NoDup_ForallPairs; [|apply seq_NoDup].
  intros i j Hi Hj E. apply in_seq in Hi, Hj. unfold uint16_t in E.
  apply Nat2Z.inj. Z.div_mod_to_equations. lia.
Qed.

(** Two iterations more than the store has entries are enough: if a nonzero
    id is unused, the loop has returned by then. *)
Lemma packet_id_loop_enough (master : Z) (l : list store) (u : Z) :
  1 <= u <= 65535 -> ~ In u (store_ids l) ->
  exists id, packet_id_loop (S (S (length l))) master l = Some id.
Proof.
  intros Hu Hn.
  destruct (packet_id_loop (S (S (length l))) master l) as [id|] eqn:E;
    [exists id; reflexivity | exfalso].
  pose proof (packet_id_loop_none _ _ _ E) as Hfail.
  destruct (Z_le_gt_dec (Z.of_nat (S (S (length l)))) 65536) as [Hsmall|Hbig].
  - (* the values seen are pairwise different and all in 0 :: ids *)
    pose proof (counter_values_NoDup master (S (S (length l))) Hsmall) as Hnd.
    assert (Hincl : incl (map (fun i => uint16_t (master + Z.of_nat i))
                              (seq 1 (S (S (length l)))))
                         (0 :: store_ids l)).
    { intros v Hv. apply in_map_iff in Hv. destruct Hv as [i [<- Hi]].
      apply in_seq in Hi. specialize (Hfail i ltac:(lia)).
      apply is_unique_false in Hfail. destruct Hfail as [->|Hin];
        [left; reflexivity | right; exact Hin]. }
    pose proof (NoDup_incl_length Hnd Hincl) as Hle.
    rewrite length_map, length_seq in Hle. cbn [length] in Hle.
    unfold store_ids in Hle. rewrite length_map in Hle. lia.
  - (* the counter has been at u *)
    set (i := Z.to_nat ((u - master - 1) mod 65536 + 1)).
    assert (Hk : 0 <= (u - master - 1) mod 65536 < 65536)
      by (apply Z.mod_pos_bound; lia).
    specialize (Hfail i ltac:(unfold i; lia)).
    replace (uint16_t (master + Z.of_nat i)) with u in Hfail.
    + apply is_unique_false in Hfail. destruct Hfail; [lia | contradiction].
    + unfold uint16_t, i. rewrite Z2Nat.id by lia.
      replace (master + ((u - master - 1) mod 65536 + 1))
        with ((u - master - 1) mod 65536 + (master + 1)) by lia.
      rewrite Z.add_mod_idemp_l by lia.
      replace (u - master - 1 + (master + 1)) with u by lia.
      symmetry. apply Z.mod_small. lia.
Qed.

(** A store with fewer than 65535 different ids leaves a nonzero id unused. *)
Lemma unused_id_exists (ids : list Z) :
  Z.of_nat (length (nodup Z.eq_dec ids)) < 65535 ->
  exists u, 1 <= u <= 65535 /\ ~ In u ids.
Proof.
  intros Hlen.
  set (all := map Z.of_nat (seq 1 (Z.to_nat 65535))).
  destruct (Forall_Exists_dec (fun u => In u ids)
              (fun u => in_dec Z.eq_dec u ids) all) as [Hall|Hex].
  - exfalso.
    assert (Hnd : NoDup all).
    { apply NoDup_map_NoDup_ForallPairs; [|apply seq_NoDup].
      intros a b _ _ E. apply Nat2Z.inj. exact E. }
    assert (Hincl : incl all (nodup Z.eq_dec ids)).
    { intros x Hx. apply nodup_In. rewrite Forall_forall in Hall. auto. }
    pose proof (NoDup_incl_length Hnd Hincl) as Hle.
    unfold all in Hle. rewrite length_map, length_seq in Hle. lia.
  - apply Exists_exists in Hex. destruct Hex as [u [Hin Hn]].
    exists u. split; [|exact Hn].
    unfold all in Hin. apply in_map_iff in Hin. destruct Hin as [n [<- Hin]].
    apply in_seq in Hin. lia.
Qed.

(** C10: when a nonzero 16-bit id is unused, in particular when the store
    holds fewer than 65535 different ids, [create_unique_packet_id] returns,
    and the id it returns is nonzero and not in the store; when every
    nonzero id is in the store the loop returns after no number of
    iterations and the call does not return. *)
Theorem create_unique_packet_id_terminates (s : endpoint) :
  ((exists u, 1 <= u <= 65535 /\ ~ In u (store_ids (store_ s))) ->
   exists id, create_unique_packet_id s = Ok id (set_packet_id_master id s) /\
              1 <= id <= 65535 /\ ~ In id (store_ids (store_ s))) /\
  (Z.of_nat (length (nodup Z.eq_dec (store_ids (store_ s)))) < 65535 ->
   exists id, create_unique_packet_id s = Ok id (set_packet_id_master id s) /\
              1 <= id <= 65535 /\ ~ In id (store_ids (store_ s))) /\
  ((forall u, 1 <= u <= 65535 -> In u (store_ids (store_ s))) ->
   (forall fuel, packet_id_loop fuel (packet_id_master_ s) (store_ s) = None) /\
   create_unique_packet_id s = Diverge).
Proof.
  assert (T : (exists u, 1 <= u <= 65535 /\ ~ In u (store_ids (store_ s))) ->
              exists id, create_unique_packet_id s = Ok id (set_packet_id_master id s) /\
                         1 <= id <= 65535 /\ ~ In id (store_ids (store_ s))).
  { intros [u [Hu Hn]].
    destruct (packet_id_loop_enough (packet_id_master_ s) (store_ s) u Hu Hn)
      as [id Hid].
    exists id. unfold create_unique_packet_id. rewrite Hid.
    split; [reflexivity|].
    apply packet_id_loop_sound in Hid. destruct Hid as [U R].
    apply is_unique_spec in U. split; [lia | tauto]. }
  split; [exact T|]. split.
  - intros Hlen. apply T. apply unused_id_exists. exact Hlen.
  - intros Hfull. split.
    + intros fuel. apply packet_id_loop_never. exact Hfull.
    + unfold create_unique_packet_id.
      rewrite packet_id_loop_never by exact Hfull. reflexivity.
Qed.

Section Allocation.

Variable is_valid_contents : str -> bool.

Lemma push_utf8_cases (b t : str) (s : endpoint) :
  (exists r, push_utf8 is_valid_contents b t s = Ok r s) \/
  (exists e, push_utf8 is_valid_contents b t s = Throw e s).
Proof.
  unfold push_utf8.
  destruct (negb (utf8string.is_valid_length t)); [right; eexists; reflexivity|].
  destruct (negb (is_valid_contents t)); [right; eexists; reflexivity|].
  left. eexists. reflexivity.
Qed.

Lemma finalize_cases (b : str) (fh : Z) (s : endpoint) :
  (exists r, finalize b fh s = Ok r s) \/
  finalize b fh s = Throw remaining_length_error s.
Proof.
  unfold finalize.
  destruct (remaining_bytes _); [left; eexists; reflexivity | right; reflexivity].
Qed.

Lemma push_subscribe_params_cases (params : list (str * Z)) (b : str) (s : endpoint) :
  (exists r, push_subscribe_params is_valid_contents b params s = Ok r s) \/
  (exists e, push_subscribe_params is_valid_contents b params s = Throw e s).
Proof.
  revert b. induction params as [|p rest IH]; intros b; cbn [push_subscribe_params].
  - left. eexists. reflexivity.
  - destruct (push_utf8_cases b (fst p) s) as [[r E]|[e E]].
    + erewrite bind_ok by exact E. apply IH.
    + right. exists e. apply bind_throw. exact E.
Qed.

Lemma push_unsubscribe_params_cases (params : list str) (b : str) (s : endpoint) :
  (exists r, push_unsubscribe_params is_valid_contents b params s = Ok r s) \/
  (exists e, push_unsubscribe_params is_valid_contents b params s = Throw e s).
Proof.
  revert b. induction params as [|p rest IH]; intros b; cbn [push_unsubscribe_params].
  - left. eexists. reflexivity.
  - destruct (push_utf8_cases b p s) as [[r E]|[e E]].
    + erewrite bind_ok by exact E. apply IH.
    + right. exists e. apply bind_throw. exact E.
Qed.




End Allocation.

Lemma emplace_fresh (e : store) (l : list store) :
  ~ In (packet_id e) (store_ids l) -> emplace e l = l ++ [e].
Proof.
  intros Hn. unfold emplace.
  destruct (existsb _ l) eqn:E; [|reflexivity].
  exfalso. apply Hn. apply existsb_exists in E. destruct E as [x [Hin Hk]].
  unfold same_key in Hk. apply andb_true_iff in Hk. destruct Hk as [Hk _].
  apply Z.eqb_eq in Hk. rewrite <- Hk.
  unfold store_ids. apply in_map. exact Hin.
Qed.

Lemma unique_ids_app (e : store) (l : list store) :
  unique_ids l -> packet_id e <> 0 -> ~ In (packet_id e) (store_ids l) ->
  unique_ids (l ++ [e]).
Proof.
  intros [Hnd H0] He Hn. unfold unique_ids, store_ids in *.
  rewrite map_app. cbn [map]. split.
  - apply NoDup_app; [exact Hnd | repeat constructor; intros [] |].
    intros x Hx [<-|[]]. exact (Hn Hx).
  - intros Hin. apply in_app_or in Hin. destruct Hin as [Hin|[Hin|[]]]; [tauto|].
    congruence.
Qed.









(** ** The fixed headers of the other packets (C7) *)

(** The packets without a packet id, and CONNACK. *)
Lemma send_pingreq_header (s : endpoint) :
  exists s', send_pingreq s = Ok tt s' /\
    last_write s' = [xc0; x00] /\
    low_nibble (first_byte (last_write s')) = 0.
Proof.
  eexists. split; [reflexivity|].
  rewrite (last_write_app _ (socket_ s) [xc0; x00]) by reflexivity.
  split; reflexivity.
Qed.

Lemma send_pingresp_header (s : endpoint) :
  exists s', send_pingresp s = Ok tt s' /\
    last_write s' = [xd0; x00] /\
    low_nibble (first_byte (last_write s')) = 0.
Proof.
  eexists. split; [reflexivity|].
  rewrite (last_write_app _ (socket_ s) [xd0; x00]) by reflexivity.
  split; reflexivity.
Qed.

Lemma send_disconnect_header (s : endpoint) :
  exists s', send_disconnect s = Ok tt s' /\
    last_write s' = [xe0; x00] /\
    low_nibble (first_byte (last_write s')) = 0.
Proof.
  eexists. split; [reflexivity|].
  rewrite (last_write_app _ (socket_ s) [xe0; x00]) by reflexivity.
  split; reflexivity.
Qed.

Lemma send_conack_header (session_present : bool) (return_code : Z) (s : endpoint) :
  exists s', send_conack session_present return_code s = Ok tt s' /\
    last_write s' = [x20; x02; to_char (if session_present then 1 else 0);
                     to_char return_code] /\
    low_nibble (first_byte (last_write s')) = 0.
Proof.
  eexists. split; [reflexivity|].
  rewrite (last_write_app _ (socket_ s)
             [x20; x02; to_char (if session_present then 1 else 0);
              to_char return_code]) by reflexivity.
  split; reflexivity.
Qed.

(** Whatever the body is, the first byte of the packet [finalize] returns is
    the fixed header it was given. *)
Lemma finalize_first_byte (hdr body : str) (fh : Z) (r : str * (nat * nat))
    (s s' : endpoint) :
  length hdr = 5%nat ->
  finalize (hdr ++ body) fh s = Ok r s' ->
  hd x00 (packet_of (fst r) (snd r)) = to_char fh.
Proof.
  intros Hh F.
  destruct (remaining_bytes (Z.of_nat (length body))) as [rb|] eqn:Hrb.
  - destruct (finalize_spec hdr body fh rb s Hh Hrb) as [ps [F' P]].
    rewrite F' in F. injection F as <- _. cbn [fst snd]. rewrite P. reflexivity.
  - unfold finalize, payload_position_ in F. rewrite length_app, Hh in F.
    replace (5 + length body - 5)%nat with (length body) in F by lia.
    rewrite Hrb in F. discriminate.
Qed.

Section Subscribe.

Variable is_valid_contents : str -> bool.

Lemma push_subscribe_params_prefix (params : list (str * Z)) (b r : str)
    (s s' : endpoint) :
  push_subscribe_params is_valid_contents b params s = Ok r s' ->
  exists tail, r = b ++ tail.
Proof.
  revert b. induction params as [|e rest IH]; intros b H; cbn [push_subscribe_params] in H.
  - injection H as <- _. exists []. symmetry. apply app_nil_r.
  - destruct (push_utf8_cases is_valid_contents b (fst e) s) as [[b1 E]|[err E]].
    + pose proof E as E'. unfold push_utf8 in E'.
      destruct (negb (utf8string.is_valid_length (fst e))); [discriminate|].
      destruct (negb (is_valid_contents (fst e))); [discriminate|].
      injection E' as <-.
      erewrite bind_ok in H by exact E.
      apply IH in H. destruct H as [tail ->].
      eexists. rewrite <- !app_assoc. reflexivity.
    + erewrite bind_throw in H by exact E. discriminate.
Qed.

Lemma push_unsubscribe_params_prefix (params : list str) (b r : str)
    (s s' : endpoint) :
  push_unsubscribe_params is_valid_contents b params s = Ok r s' ->
  exists tail, r = b ++ tail.
Proof.
  revert b. induction params as [|e rest IH]; intros b H;
    cbn [push_unsubscribe_params] in H.
  - injection H as <- _. exists []. symmetry. apply app_nil_r.
  - destruct (push_utf8_cases is_valid_contents b e s) as [[b1 E]|[err E]].
    + pose proof E as E'. unfold push_utf8 in E'.
      destruct (negb (utf8string.is_valid_length e)); [discriminate|].
      destruct (negb (is_valid_contents e)); [discriminate|].
      injection E' as <-.
      erewrite bind_ok in H by exact E.
      apply IH in H. destruct H as [tail ->].
      eexists. rewrite <- !app_assoc. reflexivity.
    + erewrite bind_throw in H by exact E. discriminate.
Qed.

(** SUBSCRIBE and UNSUBSCRIBE are written with the low nibble 0010. *)
Lemma send_subscribe_header (params : list (str * Z)) (id : Z) (s s' : endpoint) :
  send_subscribe is_valid_contents params id s = Ok tt s' ->
  low_nibble (first_byte (last_write s')) = 2.
Proof.
  unfold send_subscribe. cbv zeta. intros H.
  match type of H with
  | bind (push_subscribe_params _ ?b _) _ s = _ =>
      destruct (push_subscribe_params_cases is_valid_contents params b s)
        as [[b' E]|[err E]]
  end; [|erewrite bind_throw in H by exact E; discriminate].
  erewrite bind_ok in H by exact E.
  apply push_subscribe_params_prefix in E. destruct E as [tail ->].
  rewrite <- !app_assoc in H.
  match type of H with
  | bind (finalize ?b ?fh) _ s = _ =>
      destruct (finalize_cases b fh s) as [[f F]|F]
  end; [|erewrite bind_throw in H by exact F; discriminate].
  erewrite bind_ok in H by exact F.
  apply finalize_first_byte in F; [|reflexivity].
  unfold store_emplace, write, modify, bind in H. injection H as <-.
  unfold last_write. cbn [socket_ set_socket set_store]. rewrite last_last.
  unfold first_byte. rewrite F. reflexivity.
Qed.

Lemma send_unsubscribe_header (params : list str) (id : Z) (s s' : endpoint) :
  send_unsubscribe is_valid_contents params id s = Ok tt s' ->
  low_nibble (first_byte (last_write s')) = 2.
Proof.
  unfold send_unsubscribe. cbv zeta. intros H.
  match type of H with
  | bind (push_unsubscribe_params _ ?b _) _ s = _ =>
      destruct (push_unsubscribe_params_cases is_valid_contents params b s)
        as [[b' E]|[err E]]
  end; [|erewrite bind_throw in H by exact E; discriminate].
  erewrite bind_ok in H by exact E.
  apply push_unsubscribe_params_prefix in E. destruct E as [tail ->].
  rewrite <- !app_assoc in H.
  match type of H with
  | bind (finalize ?b ?fh) _ s = _ =>
      destruct (finalize_cases b fh s) as [[f F]|F]
  end; [|erewrite bind_throw in H by exact F; discriminate].
  erewrite bind_ok in H by exact F.
  apply finalize_first_byte in F; [|reflexivity].
  unfold store_emplace, write, modify, bind in H. injection H as <-.
  unfold last_write. cbn [socket_ set_socket set_store]. rewrite last_last.
  unfold first_byte. rewrite F. reflexivity.
Qed.

End Subscribe.

(** SUBACK is written with the low nibble 0000. *)
Lemma send_suback_header (params : list Z) (id : Z) (s s' : endpoint) :
  send_suback params id s = Ok tt s' ->
  low_nibble (first_byte (last_write s')) = 0.
Proof.
  unfold send_suback. cbv zeta. intros H.
  rewrite <- !app_assoc in H.
  match type of H with
  | bind (finalize ?b ?fh) _ s = _ =>
      destruct (finalize_cases b fh s) as [[f F]|F]
  end; [|erewrite bind_throw in H by exact F; discriminate].
  erewrite bind_ok in H by exact F.
  apply finalize_first_byte in F; [|reflexivity].
  unfold store_emplace, write, modify, bind in H. injection H as <-.
  unfold last_write. cbn [socket_ set_socket set_store]. rewrite last_last.
  unfold first_byte. rewrite F. reflexivity.
Qed.

(** ** [send_publish] *)

Section Publish.

Variable is_valid_contents : str -> bool.

Lemma push_utf8_ok (b t : str) (s : endpoint) :
  utf8string.is_valid_length t = true -> is_valid_contents t = true ->
  push_utf8 is_valid_contents b t s = Ok (b ++ encoded_length t ++ t) s.
Proof. intros H1 H2. unfold push_utf8. rewrite H1, H2. reflexivity. Qed.

(** What [send_publish] does when the topic is valid and the body has an
    encodable length: it writes the packet without DUP and, for QoS 1 and 2,
    stores the same packet with DUP set. *)
Lemma send_publish_spec (t : str) (q : Z) (r : bool) (id : Z) (p rb : str) (s : endpoint) :
  utf8string.is_valid_length t = true -> is_valid_contents t = true ->
  remaining_bytes (Z.of_nat (length (publish_body t q id p))) = Some rb ->
  exists s' e,
    send_publish is_valid_contents t q r id p s = Ok tt s' /\
    socket_ s' = socket_ s ++ [publish_packet false t q r id p rb] /\
    store_ s' = (if 0 <? q then emplace e (store_ s) else store_ s) /\
    calls_ s' = calls_ s /\ h_ s' = h_ s /\
    clean_session_ s' = clean_session_ s /\
    packet_id e = id /\
    expected_control_packet_type e = publish_expects q /\
    buf e <> None /\
    store_bytes e = publish_packet true t q r id p rb.
Proof.
  intros Hl Hc Hrb. unfold send_publish.
  erewrite bind_ok by (apply push_utf8_ok; assumption).
  match goal with
  | |- context [bind (finalize ?b ?fh) _ s] =>
      assert (Hb : b = new_send_buffer ++ publish_body t q id p)
  end.
  { unfold publish_body.
    destruct ((q =? qos.at_least_once) || (q =? qos.exactly_once));
      rewrite <- ?app_assoc; reflexivity. }
  rewrite Hb.
  destruct (finalize_spec new_send_buffer (publish_body t q id p)
              (make_fixed_header control_packet_type.publish (publish_flags q r))
              rb s eq_refl Hrb) as [ps [F P]].
  change (uint8_t (Z.lor (if r then Z.lor 0 1 else 0) (Z.shiftl q 1)))
    with (publish_flags q r).
  erewrite bind_ok by exact F. cbn [fst snd]. rewrite P.
  erewrite bind_ok by (unfold write, modify; reflexivity).
  destruct (0 <? q).
  - match goal with
    | |- context [bind (finalize _ ?fh) _ ?s1] =>
        destruct (finalize_spec
                    (finalized_header new_send_buffer
                       (make_fixed_header control_packet_type.publish (publish_flags q r)) rb)
                    (publish_body t q id p) fh rb s1
                    (finalized_header_length new_send_buffer _ rb eq_refl
                       (remaining_bytes_length _ _ Hrb)) Hrb) as [ps2 [F2 P2]]
    end.
    erewrite bind_ok by exact F2. cbn [fst snd].
    eexists. eexists. split; [reflexivity|].
    cbn [socket_ store_ calls_ h_ clean_session_ set_store set_socket
         packet_id expected_control_packet_type buf].
    repeat split; try reflexivity; [discriminate|].
    unfold store_bytes. cbn [buf ptr size]. destruct ps2 as [p2 n2]. exact P2.
  - eexists.
    exists (mk_store id (publish_expects q)
              (Some (publish_packet true t q r id p rb)) 0
              (length (publish_packet true t q r id p rb))).
    split; [reflexivity|].
    cbn [socket_ store_ calls_ h_ clean_session_ set_store set_socket
         packet_id expected_control_packet_type buf].
    repeat split; try reflexivity; [discriminate|].
    unfold store_bytes. cbn [buf ptr size skipn]. apply firstn_all.
Qed.

End Publish.

(** ** Received acknowledgements *)

Lemma deliver_framed (fh : Z) (body : str) (s : endpoint) :
  deliver fh body s = handle_payload (framed fh body s).
Proof. reflexivity. Qed.

Lemma invoke_called (h : handler) (c : call) (s : endpoint) :
  invoke h c s = Ok tt (set_calls (calls_ s ++ called s h c) s).
Proof.
  unfold invoke, called. destruct (h_ s h); [reflexivity|].
  rewrite app_nil_r. destruct s; reflexivity.
Qed.

Lemma payload_uint16_packet_id (id : Z) (fh : Z) (s : endpoint) :
  0 <= id < 65536 ->
  payload_uint16 0 (framed fh (packet_id_body id) s)
  = Ok id (framed fh (packet_id_body id) s).
Proof.
  intros H. unfold payload_uint16, payload_at, bind, ret, framed, packet_id_body.
  change (Z.to_nat 0) with 0%nat. change (Z.to_nat (0 + 1)) with 1%nat.
  cbn [payload_ set_payload nth_error].
  rewrite make_uint16_t_bytes by exact H. reflexivity.
Qed.

Lemma entries_of_none (id : Z) (l : list store) :
  entries_of id l = [] <-> ~ In id (store_ids l).
Proof.
  unfold entries_of, store_ids. induction l as [|e l IH]; cbn [filter map In].
  - tauto.
  - destruct (Z.eqb_spec (packet_id e) id) as [E|N].
    + split; [discriminate | intros H; exfalso; apply H; left; exact E].
    + rewrite IH. tauto.
Qed.

Lemma entries_of_app (id : Z) (l1 l2 : list store) :
  entries_of id (l1 ++ l2) = entries_of id l1 ++ entries_of id l2.
Proof. unfold entries_of. apply filter_app. Qed.

(** Erasing the key (id, type) removes from the entries of [id] those that
    expect [type]. *)
Lemma entries_of_erase_key (id type : Z) (l : list store) :
  entries_of id (erase_key id type l)
  = filter (fun e => negb (expected_control_packet_type e =? type)) (entries_of id l).
Proof.
  unfold entries_of, erase_key, same_key.
  induction l as [|e l IH]; cbn [filter]; [reflexivity|].
  destruct (packet_id e =? id) eqn:E1;
    destruct (expected_control_packet_type e =? type) eqn:E2;
    cbn [andb negb filter]; rewrite ?E1, ?E2; cbn [negb filter];
    rewrite ?IH; reflexivity.
Qed.

(** [handle_payload] on the three packets of the exchange. *)
Lemma handle_payload_pubrec (s : endpoint) :
  fixed_header_ s = 80 -> handle_payload s = handle_pubrec s.
Proof.
  intros H. unfold handle_payload. erewrite bind_ok by (unfold gets; reflexivity).
  rewrite H. reflexivity.
Qed.

Lemma handle_payload_pubcomp (s : endpoint) :
  fixed_header_ s = 112 -> handle_payload s = handle_pubcomp s.
Proof.
  intros H. unfold handle_payload. erewrite bind_ok by (unfold gets; reflexivity).
  rewrite H. reflexivity.
Qed.

Lemma handle_payload_pubrel (s : endpoint) :
  fixed_header_ s = 98 -> handle_payload s = handle_pubrel s.
Proof.
  intros H. unfold handle_payload. erewrite bind_ok by (unfold gets; reflexivity).
  rewrite H. reflexivity.
Qed.

(** PUBREC: the entry that waits for it is erased, PUBREL is written and
    stored, and the handler is called. *)
Lemma handle_pubrec_spec (id : Z) (s : endpoint) :
  0 <= id < 65536 ->
  exists s' e,
    deliver 80 (packet_id_body id) s = Ok tt s' /\
    socket_ s' = socket_ s ++ [packet_id_packet control_packet_type.pubrel 2 id] /\
    store_ s' = emplace e (erase_key id control_packet_type.pubrec (store_ s)) /\
    packet_id e = id /\
    expected_control_packet_type e = control_packet_type.pubcomp /\
    buf e <> None /\
    store_bytes e = packet_id_packet control_packet_type.pubrel 2 id /\
    calls_ s' = calls_ s ++ called s H_pubrec (h_pubrec id).
Proof.
  intros Hid. rewrite deliver_framed, handle_payload_pubrec by reflexivity.
  unfold handle_pubrec.
  erewrite bind_ok by (unfold gets; reflexivity).
  cbn [remaining_length_ framed set_payload set_remaining_length length
       packet_id_body Z.of_nat Pos.of_succ_nat Pos.succ Z.eqb Pos.eqb negb].
  erewrite bind_ok by (apply payload_uint16_packet_id; exact Hid).
  erewrite bind_ok by (unfold store_erase, modify; reflexivity).
  set (s1 := set_store
               (erase_key id control_packet_type.pubrec
                  (store_ (framed 80 (packet_id_body id) s)))
               (framed 80 (packet_id_body id) s)).
  destruct (send_pubrel_spec id s1) as [e [E [He [Hty [Hbuf Hbytes]]]]].
  erewrite bind_ok by exact E.
  rewrite invoke_called.
  eexists. exists e. split; [reflexivity|].
  repeat split; try assumption; reflexivity.
Qed.

(** PUBCOMP: the entry that waits for it is erased and the handler is
    called; nothing is written. *)
Lemma handle_pubcomp_spec (id : Z) (s : endpoint) :
  0 <= id < 65536 ->
  exists s',
    deliver 112 (packet_id_body id) s = Ok tt s' /\
    socket_ s' = socket_ s /\
    store_ s' = erase_key id control_packet_type.pubcomp (store_ s) /\
    calls_ s' = calls_ s ++ called s H_pubcomp (h_pubcomp id).
Proof.
  intros Hid. rewrite deliver_framed, handle_payload_pubcomp by reflexivity.
  unfold handle_pubcomp.
  erewrite bind_ok by (unfold gets; reflexivity).
  cbn [remaining_length_ framed set_payload set_remaining_length length
       packet_id_body Z.of_nat Pos.of_succ_nat Pos.succ Z.eqb Pos.eqb negb].
  erewrite bind_ok by (apply payload_uint16_packet_id; exact Hid).
  erewrite bind_ok by (unfold store_erase, modify; reflexivity).
  rewrite invoke_called.
  eexists. split; [reflexivity|]. repeat split; reflexivity.
Qed.

(** ** The QoS 2 exchange of a sent PUBLISH (C5) *)

Lemma filter_single_false {A} (f : A -> bool) (e : A) :
  f e = false -> filter f [e] = [].
Proof. intros H. cbn [filter]. rewrite H. reflexivity. Qed.

(** C5: a QoS 2 publish with an id [id] that is not in flight is written and
    leaves exactly one entry for [id], which expects PUBREC; when PUBREC for
    [id] arrives while that is the entry of [id], the entry is erased, PUBREL
    is written and the one entry of [id] is the stored PUBREL, which expects
    PUBCOMP, and the pubrec handler is called; when PUBCOMP for [id] arrives
    while that is the entry of [id], the entry is erased, the pubcomp handler
    is called and no entry of [id] is left. *)
Theorem qos2_publish_exchange (is_valid_contents : str -> bool)
    (id : Z) (t p rb : str) (r : bool) :
  0 <= id < 65536 ->
  utf8string.is_valid_length t = true -> is_valid_contents t = true ->
  remaining_bytes (Z.of_nat (length (publish_body t qos.exactly_once id p))) = Some rb ->
  (forall s, is_unique id (store_ s) = true ->
     exists s1 e,
       publish_exactly_once_id is_valid_contents id t p r s = Ok true s1 /\
       socket_ s1 = socket_ s ++ [publish_packet false t qos.exactly_once r id p rb] /\
       store_ s1 = store_ s ++ [e] /\
       entries_of id (store_ s1) = [e] /\
       expected_control_packet_type e = control_packet_type.pubrec) /\
  (forall s e,
     entries_of id (store_ s) = [e] ->
     expected_control_packet_type e = control_packet_type.pubrec ->
     exists s2 e',
       deliver 80 (packet_id_body id) s = Ok tt s2 /\
       socket_ s2 = socket_ s ++ [packet_id_packet control_packet_type.pubrel 2 id] /\
       entries_of id (store_ s2) = [e'] /\
       expected_control_packet_type e' = control_packet_type.pubcomp /\
       store_bytes e' = packet_id_packet control_packet_type.pubrel 2 id /\
       calls_ s2 = calls_ s ++ called s H_pubrec (h_pubrec id)) /\
  (forall s e,
     entries_of id (store_ s) = [e] ->
     expected_control_packet_type e = control_packet_type.pubcomp ->
     exists s3,
       deliver 112 (packet_id_body id) s = Ok tt s3 /\
       socket_ s3 = socket_ s /\
       entries_of id (store_ s3) = [] /\
       calls_ s3 = calls_ s ++ called s H_pubcomp (h_pubcomp id)).
Proof.
  intros Hid Hl Hc Hrb. split; [|split].
  - intros s U.
    destruct (send_publish_spec is_valid_contents t qos.exactly_once r id p rb s
                Hl Hc Hrb)
      as [s1 [e [S [Hsock [Hstore [_ [_ [_ [He [Hty [_ _]]]]]]]]]]].
    exists s1, e. unfold publish_exactly_once_id, is_unique_packet_id.
    erewrite bind_ok by (unfold gets; reflexivity). rewrite U.
    erewrite bind_ok by exact S.
    apply is_unique_spec in U. destruct U as [_ Un].
    cbn [Z.ltb Z.compare qos.exactly_once] in Hstore.
    rewrite emplace_fresh in Hstore by (rewrite He; exact Un).
    split; [reflexivity|]. split; [exact Hsock|]. split; [exact Hstore|].
    split; [|exact Hty].
    rewrite Hstore, entries_of_app.
    apply entries_of_none in Un. rewrite Un.
    unfold entries_of. cbn [filter app]. rewrite He, Z.eqb_refl. reflexivity.
  - intros s e He Hty.
    destruct (handle_pubrec_spec id s Hid)
      as [s2 [e' [D [Hsock [Hstore [Hid' [Hty' [_ [Hbytes Hcalls]]]]]]]]].
    exists s2, e'. split; [exact D|]. split; [exact Hsock|].
    assert (Hnone : entries_of id (erase_key id control_packet_type.pubrec (store_ s)) = []).
    { rewrite entries_of_erase_key, He. apply filter_single_false.
      rewrite Hty. reflexivity. }
    rewrite emplace_fresh in Hstore
      by (rewrite Hid'; apply entries_of_none; exact Hnone).
    split; [|split; [exact Hty' | split; [exact Hbytes | exact Hcalls]]].
    rewrite Hstore, entries_of_app, Hnone.
    unfold entries_of. cbn [filter app]. rewrite Hid', Z.eqb_refl. reflexivity.
  - intros s e He Hty.
    destruct (handle_pubcomp_spec id s Hid) as [s3 [D [Hsock [Hstore Hcalls]]]].
    exists s3. split; [exact D|]. split; [exact Hsock|]. split; [|exact Hcalls].
    rewrite Hstore, entries_of_erase_key, He. apply filter_single_false.
    rewrite Hty. reflexivity.
Qed.

(** ** CONNACK and the entries in flight (C8) *)

(** The loop of [handle_connack] writes the entries that have a buffer, in
    the order of the sequenced index, and keeps exactly those. *)
Lemma resend_spec (l : list store) (s : endpoint) :
  resend l s = Ok (filter has_buf l)
                  (set_socket (socket_ s ++ map store_bytes (filter has_buf l)) s).
Proof.
  revert s. induction l as [|e l IH]; intros s.
  - cbn [resend filter map]. rewrite app_nil_r. destruct s; reflexivity.
  - cbn [resend filter].
    destruct (buf e) as [b|] eqn:B.
    + assert (HB : has_buf e = true) by (unfold has_buf; rewrite B; reflexivity).
      rewrite HB.
      erewrite bind_ok by (unfold write, modify; reflexivity).
      erewrite bind_ok by apply IH.
      unfold ret. cbn [map socket_ set_socket].
      rewrite <- app_assoc. reflexivity.
    + assert (HB : has_buf e = false) by (unfold has_buf; rewrite B; reflexivity).
      rewrite HB. apply IH.
Qed.

Lemma handle_payload_connack (s : endpoint) :
  fixed_header_ s = 32 -> handle_payload s = handle_connack s.
Proof.
  intros H. unfold handle_payload. erewrite bind_ok by (unfold gets; reflexivity).
  rewrite H. reflexivity.
Qed.

Lemma handle_connack_accepted (b0 : byte) (s : endpoint) :
  exists s',
    deliver 32 [b0; x00] s = Ok tt s' /\
    (if clean_session_ s
     then store_ s' = [] /\ socket_ s' = socket_ s
     else store_ s' = filter has_buf (store_ s) /\
          socket_ s' = socket_ s ++ map store_bytes (filter has_buf (store_ s))) /\
    calls_ s' = calls_ s ++
                called s H_connack (h_connack (is_session_present (uchar b0)) 0).
Proof.
  rewrite deliver_framed, handle_payload_connack by reflexivity.
  unfold handle_connack.
  erewrite bind_ok by (unfold gets; reflexivity).
  change (negb (remaining_length_ (framed 32 [b0; x00] s) =? 2)) with false.
  cbn iota.
  erewrite bind_ok by (unfold payload_at; reflexivity).
  change (uchar x00 =? connect_return_code.accepted) with true. cbn iota.
  destruct (clean_session_ s) eqn:C.
  - erewrite bind_ok.
    2:{ erewrite bind_ok by (unfold gets; reflexivity).
        change (clean_session_ (framed 32 [b0; x00] s)) with (clean_session_ s).
        rewrite C. unfold modify. reflexivity. }
    erewrite bind_ok by (unfold payload_at; reflexivity).
    rewrite invoke_called. eexists. split; [reflexivity|].
    repeat split; reflexivity.
  - erewrite bind_ok.
    2:{ erewrite bind_ok by (unfold gets; reflexivity).
        change (clean_session_ (framed 32 [b0; x00] s)) with (clean_session_ s).
        rewrite C.
        erewrite bind_ok by (unfold gets; reflexivity).
        erewrite bind_ok by apply resend_spec.
        unfold modify. reflexivity. }
    erewrite bind_ok by (unfold payload_at; reflexivity).
    rewrite invoke_called. eexists. split; [reflexivity|].
    repeat split; reflexivity.
Qed.

(** The first byte of a stored PUBLISH has the DUP bit, the first byte of
    the PUBLISH that was written has not, and the rest is the same. *)
Lemma publish_packet_dup (t : str) (q : Z) (r : bool) (id : Z) (p rb : str) :
  q = qos.at_least_once \/ q = qos.exactly_once ->
  publish.is_dup (first_byte (publish_packet true t q r id p rb)) = true /\
  publish.is_dup (first_byte (publish_packet false t q r id p rb)) = false /\
  tl (publish_packet true t q r id p rb) = tl (publish_packet false t q r id p rb).
Proof.
  intros [-> | ->]; destruct r; repeat split; vm_compute; reflexivity.
Qed.

(** C8: on a CONNACK with return code accepted the store is emptied when the
    clean-session flag is set; otherwise the entries that have a buffer are
    written again, in the order of insertion, and kept, and the entries
    without a buffer are erased.  The entry [send_publish] stores for QoS 1
    or 2 holds the packet it wrote with the DUP bit set in the first byte and
    nothing else changed; the entry [send_pubrel] stores on PUBREC holds the
    PUBREL as it was written. *)
Theorem connack_resends_in_flight (is_valid_contents : str -> bool) :
  (forall (b0 : byte) (s : endpoint),
     exists s',
       deliver 32 [b0; x00] s = Ok tt s' /\
       (if clean_session_ s
        then store_ s' = [] /\ socket_ s' = socket_ s
        else store_ s' = filter has_buf (store_ s) /\
             socket_ s' = socket_ s ++ map store_bytes (filter has_buf (store_ s))) /\
       calls_ s' = calls_ s ++
                   called s H_connack (h_connack (is_session_present (uchar b0)) 0)) /\
  (forall (t : str) (q : Z) (r : bool) (id : Z) (p rb : str) (s : endpoint),
     q = qos.at_least_once \/ q = qos.exactly_once ->
     utf8string.is_valid_length t = true -> is_valid_contents t = true ->
     remaining_bytes (Z.of_nat (length (publish_body t q id p))) = Some rb ->
     exists s' e,
       send_publish is_valid_contents t q r id p s = Ok tt s' /\
       store_ s' = emplace e (store_ s) /\
       has_buf e = true /\
       last_write s' = publish_packet false t q r id p rb /\
       store_bytes e = publish_packet true t q r id p rb /\
       publish.is_dup (first_byte (store_bytes e)) = true /\
       publish.is_dup (first_byte (last_write s')) = false /\
       tl (store_bytes e) = tl (last_write s')) /\
  (forall (id : Z) (s : endpoint),
     0 <= id < 65536 ->
     exists s' e,
       deliver 80 (packet_id_body id) s = Ok tt s' /\
       store_ s' = emplace e (erase_key id control_packet_type.pubrec (store_ s)) /\
       has_buf e = true /\
       store_bytes e = last_write s' /\
       last_write s' = packet_id_packet control_packet_type.pubrel 2 id).
Proof.
  split; [|split].
  - intros b0 s. apply handle_connack_accepted.
  - intros t q r id p rb s Hq Hl Hc Hrb.
    destruct (send_publish_spec is_valid_contents t q r id p rb s Hl Hc Hrb)
      as [s' [e [S [Hsock [Hstore [_ [_ [_ [_ [_ [Hbuf Hbytes]]]]]]]]]]].
    destruct (publish_packet_dup t q r id p rb Hq) as [D1 [D0 Dtl]].
    exists s', e. split; [exact S|].
    assert (Hpos : (0 <? q) = true) by (destruct Hq as [-> | ->]; reflexivity).
    rewrite Hpos in Hstore.
    rewrite (last_write_app s' _ _ Hsock), Hbytes.
    repeat split; try assumption; try reflexivity.
    unfold has_buf. destruct (buf e); [reflexivity | contradiction].
  - intros id s Hid.
    destruct (handle_pubrec_spec id s Hid)
      as [s' [e [D [Hsock [Hstore [_ [_ [Hbuf [Hbytes _]]]]]]]]].
    exists s', e. split; [exact D|]. split; [exact Hstore|].
    rewrite (last_write_app s' _ _ Hsock), Hbytes.
    repeat split; try reflexivity.
    unfold has_buf. destruct (buf e); [reflexivity | contradiction].
Qed.

(** ** Reading the payload *)

Lemma payload_at_app (pre post : str) (b : byte) (i : Z) (s : endpoint) :
  payload_ s = pre ++ b :: post -> i = Z.of_nat (length pre) ->
  payload_at i s = Ok (uchar b) s.
Proof.
  intros Hp ->. unfold payload_at. rewrite Hp, Nat2Z.id.
  rewrite nth_error_app2 by lia. rewrite Nat.sub_diag. reflexivity.
Qed.

Lemma payload_uint16_app (pre post : str) (b1 b2 : byte) (i : Z) (s : endpoint) :
  payload_ s = pre ++ b1 :: b2 :: post -> i = Z.of_nat (length pre) ->
  payload_uint16 i s = Ok (make_uint16_t (uchar b1) (uchar b2)) s.
Proof.
  intros Hp Hi. unfold payload_uint16.
  erewrite bind_ok by (eapply payload_at_app; eassumption).
  erewrite bind_ok.
  2:{ apply (payload_at_app (pre ++ [b1]) post b2).
      - rewrite Hp, <- app_assoc. reflexivity.
      - rewrite length_app. cbn [length]. lia. }
  reflexivity.
Qed.

Lemma payload_string_app (pre mid post : str) (i n : Z) (s : endpoint) :
  payload_ s = pre ++ mid ++ post ->
  i = Z.of_nat (length pre) -> n = Z.of_nat (length mid) ->
  payload_string i n s = Ok mid s.
Proof.
  intros Hp -> ->. unfold payload_string. rewrite Hp, !length_app, !Nat2Z.id.
  destruct (Z.leb_spec 0 (Z.of_nat (length mid))); [|lia].
  destruct (Z.leb_spec (Z.of_nat (length pre) + Z.of_nat (length mid))
              (Z.of_nat (length pre + (length mid + length post)))); [|lia].
  cbn [andb]. rewrite skipn_app, skipn_all, Nat.sub_diag. cbn [skipn app].
  rewrite firstn_app, firstn_all, Nat.sub_diag. cbn [firstn].
  rewrite app_nil_r. reflexivity.
Qed.

(** The length prefix of a string of at most 65535 bytes reads back as its
    length. *)
Lemma encoded_length_reads_back (t : str) :
  Z.of_nat (length t) <= 65535 ->
  exists b1 b2, encoded_length t = [b1; b2] /\
                make_uint16_t (uchar b1) (uchar b2) = Z.of_nat (length t).
Proof.
  intros H. unfold encoded_length. eexists. eexists. split; [reflexivity|].
  apply make_uint16_t_bytes. lia.
Qed.

Lemma handle_payload_publish (s : endpoint) :
  get_control_packet_type (fixed_header_ s) = control_packet_type.publish ->
  handle_payload s = handle_publish s.
Proof.
  intros H. unfold handle_payload. erewrite bind_ok by (unfold gets; reflexivity).
  rewrite H. reflexivity.
Qed.

(** ** [handle_publish] *)

(** A PUBLISH whose body is the one [send_publish] builds is decoded to the
    same topic, packet id and payload; the acknowledgement for its QoS is
    written and the publish handler is called, whatever was received
    before. *)
Lemma handle_publish_spec (fh : Z) (t : str) (id : Z) (p : str) (s : endpoint) :
  get_control_packet_type fh = control_packet_type.publish ->
  0 <= publish.get_qos fh <= 2 ->
  Z.of_nat (length t) <= 65535 ->
  0 <= id < 65536 ->
  exists s',
    deliver fh (publish_body t (publish.get_qos fh) id p) s = Ok tt s' /\
    socket_ s' = socket_ s ++ publish_reply (publish.get_qos fh) id /\
    calls_ s' = calls_ s ++
      called s H_publish
        (h_publish fh (publish_packet_id (publish.get_qos fh) id) t p) /\
    store_ s' = store_ s /\
    h_ s' = h_ s.
Proof.
  intros Hty Hq Hlen Hid.
  rewrite deliver_framed, handle_payload_publish by exact Hty.
  destruct (encoded_length_reads_back t Hlen) as [b1 [b2 [Hel Hrd]]].
  remember (publish.get_qos fh) as q eqn:Eq.
  remember ((if (q =? qos.at_least_once) || (q =? qos.exactly_once)
             then [to_char (Z.shiftr id 8); to_char (Z.land id 255)]
             else []) ++ p) as rest eqn:Hrest.
  assert (Hbody : publish_body t q id p = [b1; b2] ++ t ++ rest).
  { unfold publish_body. rewrite Hel, Hrest. reflexivity. }
  rewrite Hbody.
  set (s0 := framed fh ([b1; b2] ++ t ++ rest) s).
  assert (Hp : payload_ s0 = [b1; b2] ++ t ++ rest) by reflexivity.
  assert (Hrl : remaining_length_ s0 = 2 + Z.of_nat (length t) + Z.of_nat (length rest)).
  { unfold s0, framed. cbn [remaining_length_ set_payload set_remaining_length].
    rewrite !length_app. cbn [length]. lia. }
  assert (Hfh : fixed_header_ s0 = fh) by reflexivity.
  unfold handle_publish.
  erewrite bind_ok by (unfold gets; reflexivity).
  rewrite Hrl.
  destruct (Z.ltb_spec (2 + Z.of_nat (length t) + Z.of_nat (length rest)) 2); [lia|].
  cbv zeta.
  erewrite bind_ok by (apply (payload_uint16_app [] (t ++ rest) b1 b2); [exact Hp | reflexivity]).
  rewrite Hrd.
  destruct (Z.ltb_spec (2 + Z.of_nat (length t) + Z.of_nat (length rest))
              (0 + 2 + Z.of_nat (length t))); [lia|].
  erewrite bind_ok by (apply (payload_string_app [b1; b2] t rest); [exact Hp | reflexivity | reflexivity]).
  erewrite bind_ok by (unfold gets; reflexivity).
  rewrite Hfh, <- Eq.
  assert (Hsize : Z.of_nat (length (payload_ s0))
                  = 2 + Z.of_nat (length t) + Z.of_nat (length rest)).
  { rewrite Hp, !length_app. cbn [length]. lia. }
  assert (Hcases : q = 0 \/ q = 1 \/ q = 2) by lia.
  destruct Hcases as [Hq0|[Hq1|Hq2]].
  - rewrite Hq0 in *.
    change ((0 =? qos.at_least_once) || (0 =? qos.exactly_once)) with false in Hrest.
    cbn [app] in Hrest. subst rest.
    change (0 =? qos.at_most_once) with true. cbn iota.
    erewrite bind_ok by reflexivity. cbn [fst snd].
    erewrite bind_ok by (unfold gets; reflexivity).
    rewrite Hsize.
    erewrite bind_ok.
    2:{ apply (payload_string_app ([b1; b2] ++ t) p []).
        - rewrite Hp, app_nil_r, <- app_assoc. reflexivity.
        - rewrite length_app. cbn [length]. lia.
        - lia. }
    rewrite invoke_called. eexists. split; [reflexivity|].
    cbn [socket_ calls_ store_ h_ set_calls]. unfold publish_reply, publish_packet_id.
    change (0 =? qos.at_least_once) with false.
    change (0 =? qos.exactly_once) with false. cbn [orb].
    rewrite app_nil_r. repeat split; reflexivity.
  - rewrite Hq1 in *.
    change ((1 =? qos.at_least_once) || (1 =? qos.exactly_once)) with true in Hrest.
    cbn [app] in Hrest. subst rest. cbn [length] in *.
    change (1 =? qos.at_most_once) with false.
    change (1 =? qos.at_least_once) with true.
    change (1 =? qos.exactly_once) with false. cbn iota.
    match goal with
    | |- context [if ?a <? ?b then _ else _] => destruct (Z.ltb_spec a b); [lia|]
    end.
    erewrite bind_ok.
    2:{ erewrite bind_ok.
        2:{ apply (payload_uint16_app ([b1; b2] ++ t) p
                     (to_char (Z.shiftr id 8)) (to_char (Z.land id 255))).
            - rewrite Hp, <- app_assoc. reflexivity.
            - rewrite length_app. cbn [length]. lia. }
        rewrite make_uint16_t_bytes by exact Hid.
        erewrite bind_ok by apply send_puback_eq.
        reflexivity. }
    cbn [fst snd].
    erewrite bind_ok by (unfold gets; reflexivity).
    change (payload_ (set_socket ?x s0)) with (payload_ s0).
    rewrite Hsize.
    erewrite bind_ok.
    2:{ apply (payload_string_app
                 ([b1; b2] ++ t ++ [to_char (Z.shiftr id 8); to_char (Z.land id 255)]) p []).
        - change (payload_ (set_socket ?x s0)) with (payload_ s0).
          rewrite Hp, app_nil_r, <- !app_assoc. reflexivity.
        - rewrite !length_app. cbn [length]. lia.
        - lia. }
    rewrite invoke_called. eexists. split; [reflexivity|].
    cbn [socket_ calls_ store_ h_ set_calls set_socket].
    unfold publish_reply, publish_packet_id.
    change (1 =? qos.at_least_once) with true.
    change (1 =? qos.exactly_once) with false. cbn [orb]. cbn iota.
    repeat split; reflexivity.
  - rewrite Hq2 in *.
    change ((2 =? qos.at_least_once) || (2 =? qos.exactly_once)) with true in Hrest.
    cbn [app] in Hrest. subst rest. cbn [length] in *.
    change (2 =? qos.at_most_once) with false.
    change (2 =? qos.at_least_once) with false.
    change (2 =? qos.exactly_once) with true. cbn iota.
    match goal with
    | |- context [if ?a <? ?b then _ else _] => destruct (Z.ltb_spec a b); [lia|]
    end.
    erewrite bind_ok.
    2:{ erewrite bind_ok.
        2:{ apply (payload_uint16_app ([b1; b2] ++ t) p
                     (to_char (Z.shiftr id 8)) (to_char (Z.land id 255))).
            - rewrite Hp, <- app_assoc. reflexivity.
            - rewrite length_app. cbn [length]. lia. }
        rewrite make_uint16_t_bytes by exact Hid.
        erewrite bind_ok by apply send_pubrec_eq.
        reflexivity. }
    cbn [fst snd].
    erewrite bind_ok by (unfold gets; reflexivity).
    change (payload_ (set_socket ?x s0)) with (payload_ s0).
    rewrite Hsize.
    erewrite bind_ok.
    2:{ apply (payload_string_app
                 ([b1; b2] ++ t ++ [to_char (Z.shiftr id 8); to_char (Z.land id 255)]) p []).
        - change (payload_ (set_socket ?x s0)) with (payload_ s0).
          rewrite Hp, app_nil_r, <- !app_assoc. reflexivity.
        - rewrite !length_app. cbn [length]. lia.
        - lia. }
    rewrite invoke_called. eexists. split; [reflexivity|].
    cbn [socket_ calls_ store_ h_ set_calls set_socket].
    unfold publish_reply, publish_packet_id.
    change (2 =? qos.at_least_once) with false.
    change (2 =? qos.exactly_once) with true. cbn [orb]. cbn iota.
    repeat split; reflexivity.
Qed.

(** ** A PUBLISH of QoS 2 received twice (C4) *)

Lemma handle_pubrel_spec (id : Z) (s : endpoint) :
  0 <= id < 65536 ->
  exists s',
    deliver 98 (packet_id_body id) s = Ok tt s' /\
    socket_ s' = socket_ s ++ [packet_id_packet control_packet_type.pubcomp 0 id] /\
    calls_ s' = calls_ s /\
    store_ s' = store_ s.
Proof.
  intros Hid. rewrite deliver_framed, handle_payload_pubrel by reflexivity.
  unfold handle_pubrel.
  erewrite bind_ok by (unfold gets; reflexivity).
  cbn [remaining_length_ framed set_payload set_remaining_length length
       packet_id_body Z.of_nat Pos.of_succ_nat Pos.succ Z.eqb Pos.eqb negb].
  erewrite bind_ok by (apply payload_uint16_packet_id; exact Hid).
  rewrite send_pubcomp_eq. eexists. split; [reflexivity|].
  repeat split; reflexivity.
Qed.

(** C4 as the claim has it fails: the same PUBLISH of QoS 2 with packet id
    7, received twice with no PUBREL between, reaches the publish handler
    twice. *)
Lemma qos2_duplicate_delivered_twice :
  exists s',
    receive (publish_qos2_7 ++ publish_qos2_7) new_endpoint = Ok tt s' /\
    socket_ s' = [[x50; x02; x00; x07]; [x50; x02; x00; x07]] /\
    publish_calls 7 (calls_ s') = 2%nat /\
    ~ (publish_calls 7 (calls_ s') <= 1)%nat.
Proof.
  eexists. split; [vm_compute; reflexivity|].
  split; [reflexivity|]. split; [reflexivity|].
  vm_compute. intros H. apply le_S_n in H. inversion H.
Qed.

(** C4, amended: every PUBLISH of QoS 2 that is received is answered with
    PUBREC for its packet id and handed to the publish handler, in whatever
    state the endpoint is, so also when the same id was received before; the
    endpoint keeps no record of the ids received.  A PUBREL is answered with
    PUBCOMP for its packet id and changes nothing else. *)
Theorem qos2_publish_always_delivered (fh : Z) (t : str) (id : Z) (p : str)
    (s : endpoint) :
  get_control_packet_type fh = control_packet_type.publish ->
  publish.get_qos fh = qos.exactly_once ->
  Z.of_nat (length t) <= 65535 ->
  0 <= id < 65536 ->
  (exists s',
     deliver fh (publish_body t qos.exactly_once id p) s = Ok tt s' /\
     socket_ s' = socket_ s ++ [packet_id_packet control_packet_type.pubrec 0 id] /\
     calls_ s' = calls_ s ++ called s H_publish (h_publish fh (Some id) t p) /\
     store_ s' = store_ s) /\
  (exists s',
     deliver 98 (packet_id_body id) s = Ok tt s' /\
     socket_ s' = socket_ s ++ [packet_id_packet control_packet_type.pubcomp 0 id] /\
     calls_ s' = calls_ s /\
     store_ s' = store_ s).
Proof.
  intros Hty Hq Hlen Hid. split.
  - destruct (handle_publish_spec fh t id p s Hty ltac:(rewrite Hq; cbv; split; discriminate)
                Hlen Hid) as [s' [D [Hsock [Hcalls [Hstore _]]]]].
    rewrite Hq in D, Hsock, Hcalls. exists s'.
    split; [exact D|]. split; [exact Hsock|]. split; [exact Hcalls | exact Hstore].
  - apply handle_pubrel_spec. exact Hid.
Qed.

(** ** The acknowledgements and the ids of the store *)

Lemma handle_payload_puback (s : endpoint) :
  fixed_header_ s = 64 -> handle_payload s = handle_puback s.
Proof.
  intros H. unfold handle_payload. erewrite bind_ok by (unfold gets; reflexivity).
  rewrite H. reflexivity.
Qed.

Lemma handle_payload_suback (s : endpoint) :
  fixed_header_ s = 144 -> handle_payload s = handle_suback s.
Proof.
  intros H. unfold handle_payload. erewrite bind_ok by (unfold gets; reflexivity).
  rewrite H. reflexivity.
Qed.

Lemma handle_payload_unsuback (s : endpoint) :
  fixed_header_ s = 176 -> handle_payload s = handle_unsuback s.
Proof.
  intros H. unfold handle_payload. erewrite bind_ok by (unfold gets; reflexivity).
  rewrite H. reflexivity.
Qed.

(** PUBACK, SUBACK and UNSUBACK erase the entry that waits for them and call
    their handler. *)
Lemma handle_puback_spec (id : Z) (s : endpoint) :
  0 <= id < 65536 ->
  exists s',
    deliver 64 (packet_id_body id) s = Ok tt s' /\
    socket_ s' = socket_ s /\
    store_ s' = erase_key id control_packet_type.puback (store_ s) /\
    calls_ s' = calls_ s ++ called s H_puback (h_puback id).
Proof.
  intros Hid. rewrite deliver_framed, handle_payload_puback by reflexivity.
  unfold handle_puback.
  erewrite bind_ok by (unfold gets; reflexivity).
  cbn [remaining_length_ framed set_payload set_remaining_length length
       packet_id_body Z.of_nat Pos.of_succ_nat Pos.succ Z.eqb Pos.eqb negb].
  erewrite bind_ok by (apply payload_uint16_packet_id; exact Hid).
  erewrite bind_ok by (unfold store_erase, modify; reflexivity).
  rewrite invoke_called.
  eexists. split; [reflexivity|]. repeat split; reflexivity.
Qed.

Lemma handle_unsuback_spec (id : Z) (s : endpoint) :
  0 <= id < 65536 ->
  exists s',
    deliver 176 (packet_id_body id) s = Ok tt s' /\
    socket_ s' = socket_ s /\
    store_ s' = erase_key id control_packet_type.unsuback (store_ s) /\
    calls_ s' = calls_ s ++ called s H_unsuback (h_unsuback id).
Proof.
  intros Hid. rewrite deliver_framed, handle_payload_unsuback by reflexivity.
  unfold handle_unsuback.
  erewrite bind_ok by (unfold gets; reflexivity).
  cbn [remaining_length_ framed set_payload set_remaining_length length
       packet_id_body Z.of_nat Pos.of_succ_nat Pos.succ Z.eqb Pos.eqb negb].
  erewrite bind_ok by (apply payload_uint16_packet_id; exact Hid).
  erewrite bind_ok by (unfold store_erase, modify; reflexivity).
  rewrite invoke_called.
  eexists. split; [reflexivity|]. repeat split; reflexivity.
Qed.

Lemma handle_suback_spec (id : Z) (codes : str) (s : endpoint) :
  0 <= id < 65536 ->
  exists s' qoss,
    deliver 144 (packet_id_body id ++ codes) s = Ok tt s' /\
    socket_ s' = socket_ s /\
    store_ s' = erase_key id control_packet_type.suback (store_ s) /\
    calls_ s' = calls_ s ++ called s H_suback (h_suback id qoss).
Proof.
  intros Hid. rewrite deliver_framed, handle_payload_suback by reflexivity.
  unfold handle_suback.
  erewrite bind_ok by (unfold gets; reflexivity).
  match goal with
  | |- context [if ?a <? 2 then _ else _] => destruct (Z.ltb_spec a 2) as [Hlt|_]
  end.
  { exfalso. unfold framed in Hlt.
    cbn [remaining_length_ set_payload set_remaining_length] in Hlt.
    rewrite length_app in Hlt. cbn [length packet_id_body] in Hlt. lia. }
  erewrite bind_ok.
  2:{ apply (payload_uint16_app [] codes (to_char (Z.shiftr id 8))
               (to_char (Z.land id 255))); reflexivity. }
  rewrite make_uint16_t_bytes by exact Hid.
  erewrite bind_ok by (unfold store_erase, modify; reflexivity).
  erewrite bind_ok by (unfold gets; reflexivity).
  rewrite invoke_called.
  eexists. eexists. split; [reflexivity|]. repeat split; reflexivity.
Qed.

Lemma NoDup_map_filter {A B} (f : A -> B) (g : A -> bool) (l : list A) :
  NoDup (map f l) -> NoDup (map f (filter g l)).
Proof.
  induction l as [|a l IH]; cbn [map filter]; intros H; [constructor|].
  inversion H as [|x xs Hn Hnd]; subst.
  destruct (g a); cbn [map]; [constructor|]; auto.
  intros Hin. apply Hn. apply in_map_iff in Hin. destruct Hin as [y [E Hy]].
  apply filter_In in Hy. destruct Hy as [Hy _].
  apply in_map_iff. exists y. split; assumption.
Qed.

(** Erasing entries keeps the ids pairwise different and nonzero. *)
Lemma unique_ids_filter (g : store -> bool) (l : list store) :
  unique_ids l -> unique_ids (filter g l).
Proof.
  intros [Hnd H0]. split.
  - apply NoDup_map_filter. exact Hnd.
  - intros Hin. apply H0. unfold store_ids in *.
    apply in_map_iff in Hin. destruct Hin as [y [E Hy]].
    apply filter_In in Hy. destruct Hy as [Hy _].
    apply in_map_iff. exists y. split; assumption.
Qed.

Lemma entries_of_In (id : Z) (e : store) (l : list store) :
  In e (entries_of id l) <-> In e l /\ packet_id e = id.
Proof.
  unfold entries_of. rewrite filter_In. rewrite Z.eqb_eq. reflexivity.
Qed.

(** The acknowledgements of the exchanges the endpoint started keep the ids
    of the store pairwise different and nonzero: PUBACK, PUBCOMP, SUBACK and
    UNSUBACK and an accepted CONNACK only erase entries, and PUBREC for an
    id whose entry waits for it puts the stored PUBREL in its place. *)
Lemma unique_ids_kept_by_acknowledgements (id : Z) (s s' : endpoint) :
  0 <= id < 65536 ->
  unique_ids (store_ s) ->
  (deliver 64 (packet_id_body id) s = Ok tt s' -> unique_ids (store_ s')) /\
  (deliver 112 (packet_id_body id) s = Ok tt s' -> unique_ids (store_ s')) /\
  (deliver 176 (packet_id_body id) s = Ok tt s' -> unique_ids (store_ s')) /\
  (forall codes,
     deliver 144 (packet_id_body id ++ codes) s = Ok tt s' ->
     unique_ids (store_ s')) /\
  (forall b0, deliver 32 [b0; x00] s = Ok tt s' -> unique_ids (store_ s')) /\
  (forall e,
     entries_of id (store_ s) = [e] ->
     expected_control_packet_type e = control_packet_type.pubrec ->
     deliver 80 (packet_id_body id) s = Ok tt s' -> unique_ids (store_ s')).
Proof.
  intros Hid U. split; [|split; [|split; [|split; [|split]]]].
  - intros D. destruct (handle_puback_spec id s Hid) as [s1 [D1 [_ [Hs _]]]].
    rewrite D1 in D. injection D as <-. rewrite Hs. apply unique_ids_filter, U.
  - intros D. destruct (handle_pubcomp_spec id s Hid) as [s1 [D1 [_ [Hs _]]]].
    rewrite D1 in D. injection D as <-. rewrite Hs. apply unique_ids_filter, U.
  - intros D. destruct (handle_unsuback_spec id s Hid) as [s1 [D1 [_ [Hs _]]]].
    rewrite D1 in D. injection D as <-. rewrite Hs. apply unique_ids_filter, U.
  - intros codes D.
    destruct (handle_suback_spec id codes s Hid) as [s1 [q [D1 [_ [Hs _]]]]].
    rewrite D1 in D. injection D as <-. rewrite Hs. apply unique_ids_filter, U.
  - intros b0 D. destruct (handle_connack_accepted b0 s) as [s1 [D1 [Hs _]]].
    rewrite D1 in D. injection D as <-.
    destruct (clean_session_ s).
    + destruct Hs as [-> _]. split; [constructor | intros []].
    + destruct Hs as [-> _]. apply unique_ids_filter, U.
  - intros e He Hty D.
    destruct (handle_pubrec_spec id s Hid)
      as [s1 [e' [D1 [_ [Hs [Hid' _]]]]]].
    rewrite D1 in D. injection D as <-.
    assert (Hnone : entries_of id (erase_key id control_packet_type.pubrec (store_ s)) = []).
    { rewrite entries_of_erase_key, He. apply filter_single_false.
      rewrite Hty. reflexivity. }
    assert (Hn : ~ In (packet_id e') (store_ids (erase_key id control_packet_type.pubrec (store_ s)))).
    { rewrite Hid'. apply entries_of_none. exact Hnone. }
    rewrite Hs, emplace_fresh by exact Hn.
    apply unique_ids_app; [apply unique_ids_filter, U | | exact Hn].
    rewrite Hid'. intros ->. destruct U as [_ U0]. apply U0.
    assert (Hin : In e (entries_of 0 (store_ s))) by (rewrite He; left; reflexivity).
    apply entries_of_In in Hin. destruct Hin as [Hin E].
    unfold store_ids. rewrite <- E. apply in_map. exact Hin.
Qed.

(** ** The frame reader *)

(** The length field of a packet, read from the input in front of the body:
    the bytes that encode a value below 2,097,152 leave that value in
    [remaining_length_] and the body as the rest of the input. *)
Lemma read_remaining_length_spec (v : Z) (rb rest : str) (s : endpoint) :
  0 <= v < 2097152 ->
  remaining_bytes v = Some rb ->
  remaining_length_ s = 0 -> remaining_length_multiplier_ s = 1 ->
  exists s',
    read_remaining_length (rb ++ rest) s = Ok (Some rest) s' /\
    remaining_length_ s' = v /\
    fixed_header_ s' = fixed_header_ s /\
    payload_ s' = resize (remaining_length_ s') (payload_ s) /\
    same_session s s'.
Proof.
  intros Hv Hb Hrl Hm. unfold remaining_bytes in Hb.
  destruct (Z.ltb_spec v 0); [lia|].
  destruct (Z.ltb_spec v 128).
  { injection Hb as <-. cbn [app read_remaining_length].
    eexists.
    erewrite bind_ok.
    2:{ apply handle_remaining_length_last; [rewrite Hm; lia|].
        apply uchar_final. lia. }
    cbn iota. split; [reflexivity|].
    split; [|split; [reflexivity | split; [reflexivity | unfold same_session; repeat split]]].
    cbn. rewrite Hrl, Hm, uchar_small, land_127, Z.mod_small by lia. lia. }
  destruct (Z.ltb_spec v 16384).
  { injection Hb as <-. rewrite land_127, shiftr_7.
    assert (Hq : 0 <= v / 128 < 128) by (Z.div_mod_to_equations; lia).
    cbn [app read_remaining_length].
    eexists.
    erewrite bind_ok.
    2:{ apply handle_remaining_length_more; [rewrite Hm; lia|].
        apply uchar_continuation, mod_128_range. }
    cbn iota.
    erewrite bind_ok.
    2:{ apply handle_remaining_length_last; [cbn; rewrite Hm; lia|].
        apply uchar_final, Hq. }
    cbn iota. split; [reflexivity|].
    split; [|split; [reflexivity | split; [reflexivity | unfold same_session; repeat split]]].
    cbn. rewrite Hrl, Hm, uchar_low7 by apply mod_128_range.
    rewrite uchar_small, land_127, (Z.mod_small (v / 128)) by lia.
    Z.div_mod_to_equations; lia. }
  destruct (Z.ltb_spec v 2097152); [|lia].
  injection Hb as <-. rewrite !land_127, shiftr_7, shiftr_14.
  assert (Hq : 0 <= v / 16384 < 128) by (Z.div_mod_to_equations; lia).
  cbn [app read_remaining_length].
  eexists.
  erewrite bind_ok.
  2:{ apply handle_remaining_length_more; [rewrite Hm; lia|].
      apply uchar_continuation, mod_128_range. }
  cbn iota.
  erewrite bind_ok.
  2:{ apply handle_remaining_length_more; [cbn; rewrite Hm; lia|].
      apply uchar_continuation, mod_128_range. }
  cbn iota.
  erewrite bind_ok.
  2:{ apply handle_remaining_length_last; [cbn; rewrite Hm; lia|].
      apply uchar_final, Hq. }
  cbn iota. split; [reflexivity|].
  split; [|split; [reflexivity | split; [reflexivity | unfold same_session; repeat split]]].
  cbn. rewrite Hrl, Hm, !uchar_low7 by apply mod_128_range.
  rewrite uchar_small, land_127, (Z.mod_small (v / 16384)) by lia.
  Z.div_mod_to_equations; lia.
Qed.

Lemma read_fourth_length_byte_throws (b1 b2 b3 b4 : byte) (rest : list byte) (s : endpoint) :
  remaining_length_multiplier_ s = 1 ->
  Z.land (uchar b1) 128 <> 0 ->
  Z.land (uchar b2) 128 <> 0 ->
  Z.land (uchar b3) 128 <> 0 ->
  exists s', read_remaining_length (b1 :: b2 :: b3 :: b4 :: rest) s
             = Throw remaining_length_error s' /\ calls_ s' = calls_ s.
Proof.
  intros Hm H1 H2 H3. cbn [read_remaining_length]. eexists.
  erewrite bind_ok by (apply handle_remaining_length_more; [rewrite Hm; lia | exact H1]).
  cbn iota.
  erewrite bind_ok by (apply handle_remaining_length_more; [cbn; rewrite Hm; lia | exact H2]).
  cbn iota.
  erewrite bind_ok by (apply handle_remaining_length_more; [cbn; rewrite Hm; lia | exact H3]).
  cbn iota.
  split.
  - apply bind_throw. apply handle_remaining_length_overflow. cbn. rewrite Hm. lia.
  - reflexivity.
Qed.

Lemma framed_fixpoint (fh : Z) (body : str) (s : endpoint) :
  fixed_header_ s = fh -> remaining_length_ s = Z.of_nat (length body) ->
  set_payload body s = framed fh body s.
Proof.
  intros H1 H2. destruct s. cbn in *. subst. reflexivity.
Qed.

Lemma set_payload_same (s : endpoint) (p : str) :
  payload_ s = p -> set_payload p s = s.
Proof. intros <-. destruct s. reflexivity. Qed.

(** The body of a frame, when it is all that is left of the input. *)
Lemma read_payload_whole (body : str) (s : endpoint) :
  remaining_length_ s = Z.of_nat (length body) ->
  (body = [] -> payload_ s = []) ->
  read_payload body s
  = bind handle_payload (fun _ => ret (Some [])) (set_payload body s).
Proof.
  intros Hrl Hnil. unfold read_payload.
  rewrite (bind_ok (gets remaining_length_) _ s s (remaining_length_ s))
    by reflexivity.
  rewrite Hrl.
  destruct (Z.eqb_spec (Z.of_nat (length body)) 0) as [E0|N0].
  - assert (body = []) by (destruct body; [reflexivity | cbn [length] in E0; lia]).
    subst body. rewrite set_payload_same by (apply Hnil; reflexivity). reflexivity.
  - destruct (Z.ltb_spec (Z.of_nat (length body)) (Z.of_nat (length body))); [lia|].
    rewrite Nat2Z.id, firstn_all, skipn_all.
    rewrite (bind_ok (modify (set_payload body)) _ s (set_payload body s) tt)
      by reflexivity.
    reflexivity.
Qed.

(** Receiving a frame whose body is shorter than 2,097,152 bytes, with the
    input ending behind it, is [handle_payload] on the frame and then the
    close handler. *)
Lemma receive_frame (fhb : byte) (body rb : str) (s : endpoint) :
  Z.of_nat (length body) < 2097152 ->
  remaining_bytes (Z.of_nat (length body)) = Some rb ->
  exists s1,
    same_session s s1 /\
    receive (fhb :: rb ++ body) s
    = bind handle_payload (fun _ => handle_close) (framed (uchar fhb) body s1).
Proof.
  intros Hv Hrb. unfold receive. cbn [read_packets length].
  erewrite bind_ok by (unfold handle_control_packet_type, bind, modify; reflexivity).
  match goal with
  | |- context [bind (read_remaining_length _) _ ?s0] =>
      destruct (read_remaining_length_spec (Z.of_nat (length body)) rb body s0
                  ltac:(lia) Hrb eq_refl eq_refl) as [s' [R [Hrl [Hfh [Hpl Hss]]]]]
  end.
  erewrite bind_ok by exact R. cbn iota.
  cbn [fixed_header_ set_remaining_length_multiplier set_remaining_length
       set_fixed_header] in Hfh.
  exists s'. split.
  { unfold same_session in *. cbn in Hss. exact Hss. }
  unfold bind at 1. rewrite read_payload_whole.
  2:{ exact Hrl. }
  2:{ intros ->. rewrite Hpl, Hrl. reflexivity. }
  rewrite (framed_fixpoint (uchar fhb) body s' Hfh Hrl).
  assert (Hfuel : exists n, (length (rb ++ body) = S n)%nat).
  { pose proof (remaining_bytes_length _ _ Hrb). rewrite length_app.
    exists (length rb + length body - 1)%nat. lia. }
  destruct Hfuel as [n ->].
  unfold bind. destruct (handle_payload _); reflexivity.
Qed.

(** ** Encoding and decoding (C3) *)

Lemma publish_header_reads_back (q : Z) (r : bool) :
  q = 0 \/ q = 1 \/ q = 2 ->
  let fh := uchar (to_char (make_fixed_header control_packet_type.publish
                              (publish_flags q r))) in
  get_control_packet_type fh = control_packet_type.publish /\
  publish.get_qos fh = q /\
  publish.is_retain fh = r /\
  publish.is_dup fh = false.
Proof.
  intros [-> | [-> | ->]]; destruct r; vm_compute; repeat split; reflexivity.
Qed.

(** PUBLISH: the body [send_publish] writes behind the fixed header and the
    remaining length is decoded by [handle_publish] to the topic, the packet
    id and the payload it was built from, and the fixed header to the QoS and
    the retain flag. *)
Lemma publish_round_trip (is_valid_contents : str -> bool)
    (t : str) (q : Z) (r : bool) (id : Z) (p rb : str) (s rcv : endpoint) :
  q = 0 \/ q = 1 \/ q = 2 ->
  0 <= id < 65536 ->
  utf8string.is_valid_length t = true -> is_valid_contents t = true ->
  remaining_bytes (Z.of_nat (length (publish_body t q id p))) = Some rb ->
  exists s' fh rcv',
    send_publish is_valid_contents t q r id p s = Ok tt s' /\
    last_write s' = fh :: rb ++ publish_body t q id p /\
    deliver (uchar fh) (publish_body t q id p) rcv = Ok tt rcv' /\
    calls_ rcv' = calls_ rcv ++
      called rcv H_publish (h_publish (uchar fh) (publish_packet_id q id) t p) /\
    publish.get_qos (uchar fh) = q /\
    publish.is_retain (uchar fh) = r.
Proof.
  intros Hq Hid Hl Hc Hrb.
  destruct (send_publish_spec is_valid_contents t q r id p rb s Hl Hc Hrb)
    as [s' [e [S [Hsock _]]]].
  destruct (publish_header_reads_back q r Hq) as [Hty [Hqos [Hret _]]].
  set (fh := to_char (make_fixed_header control_packet_type.publish
                        (publish_flags q r))) in *.
  assert (Hlen : Z.of_nat (length t) <= 65535).
  { unfold utf8string.is_valid_length in Hl. apply Z.leb_le. exact Hl. }
  destruct (handle_publish_spec (uchar fh) t id p rcv Hty
              ltac:(rewrite Hqos; lia) Hlen Hid) as [rcv' [D [_ [Hcalls _]]]].
  rewrite Hqos in D, Hcalls.
  exists s', fh, rcv'. split; [exact S|].
  split; [apply (last_write_app s' _ _ Hsock)|].
  split; [exact D|]. split; [exact Hcalls|]. split; assumption.
Qed.

(** On the wire: a PUBLISH whose body is shorter than 2,097,152 bytes, read
    by the peer from its socket, reaches the publish handler of the peer
    with the topic, the packet id and the payload it was sent with. *)
Lemma publish_wire_round_trip (is_valid_contents : str -> bool)
    (t : str) (q : Z) (r : bool) (id : Z) (p rb : str) (s rcv : endpoint) :
  q = 0 \/ q = 1 \/ q = 2 ->
  0 <= id < 65536 ->
  utf8string.is_valid_length t = true -> is_valid_contents t = true ->
  Z.of_nat (length (publish_body t q id p)) < 2097152 ->
  remaining_bytes (Z.of_nat (length (publish_body t q id p))) = Some rb ->
  exists s' fh rcv',
    send_publish is_valid_contents t q r id p s = Ok tt s' /\
    last_write s' = fh :: rb ++ publish_body t q id p /\
    receive (last_write s') rcv = Ok tt rcv' /\
    calls_ rcv' = calls_ rcv ++
      called rcv H_publish (h_publish (uchar fh) (publish_packet_id q id) t p) ++
      called rcv H_close h_close.
Proof.
  intros Hq Hid Hl Hc Hv Hrb.
  destruct (send_publish_spec is_valid_contents t q r id p rb s Hl Hc Hrb)
    as [s' [e [S [Hsock _]]]].
  destruct (publish_header_reads_back q r Hq) as [Hty [Hqos _]].
  set (fh := to_char (make_fixed_header control_packet_type.publish
                        (publish_flags q r))) in *.
  assert (Hlen : Z.of_nat (length t) <= 65535).
  { unfold utf8string.is_valid_length in Hl. apply Z.leb_le. exact Hl. }
  destruct (receive_frame fh (publish_body t q id p) rb rcv Hv Hrb)
    as [r1 [[_ [Hc1 [_ [Hh1 _]]]] R]].
  destruct (handle_publish_spec (uchar fh) t id p r1 Hty
              ltac:(rewrite Hqos; lia) Hlen Hid)
    as [rcv' [D [_ [Hcalls [_ Hh]]]]].
  rewrite Hqos in D, Hcalls. rewrite deliver_framed in D.
  exists s', fh. eexists. split; [exact S|].
  rewrite (last_write_app s' _ _ Hsock).
  split; [reflexivity|].
  change (publish_packet false t q r id p rb)
    with (fh :: rb ++ publish_body t q id p).
  rewrite R. erewrite bind_ok by exact D.
  unfold handle_close. rewrite invoke_called.
  split; [reflexivity|].
  cbn [calls_ set_calls]. rewrite Hcalls, Hc1, <- app_assoc.
  unfold called. rewrite Hh, Hh1. reflexivity.
Qed.

Lemma remaining_bytes_four (v : Z) (rb : str) :
  2097152 <= v -> remaining_bytes v = Some rb ->
  exists b1 b2 b3 b4,
    rb = [b1; b2; b3; b4] /\
    Z.land (uchar b1) 128 <> 0 /\ Z.land (uchar b2) 128 <> 0 /\
    Z.land (uchar b3) 128 <> 0.
Proof.
  intros Hv Hb. unfold remaining_bytes in Hb.
  destruct (Z.ltb_spec v 0); [lia|].
  destruct (Z.ltb_spec v 128); [lia|].
  destruct (Z.ltb_spec v 16384); [lia|].
  destruct (Z.ltb_spec v 2097152); [lia|].
  destruct (Z.ltb_spec v 268435456); [|discriminate].
  injection Hb as <-. do 4 eexists. split; [reflexivity|].
  repeat split; rewrite land_127; apply uchar_continuation, mod_128_range.
Qed.

(** On the wire: a PUBLISH whose body has 2,097,152 bytes or more is written
    by [send_publish] and makes the peer that reads it throw
    [remaining_length_error]; its publish handler is not called. *)
Lemma publish_wire_too_long (is_valid_contents : str -> bool)
    (t : str) (q : Z) (r : bool) (id : Z) (p rb : str) (s rcv : endpoint) :
  utf8string.is_valid_length t = true -> is_valid_contents t = true ->
  2097152 <= Z.of_nat (length (publish_body t q id p)) ->
  remaining_bytes (Z.of_nat (length (publish_body t q id p))) = Some rb ->
  exists s' rcv',
    send_publish is_valid_contents t q r id p s = Ok tt s' /\
    receive (last_write s') rcv = Throw remaining_length_error rcv' /\
    calls_ rcv' = calls_ rcv.
Proof.
  intros Hl Hc Hv Hrb.
  destruct (send_publish_spec is_valid_contents t q r id p rb s Hl Hc Hrb)
    as [s' [e [S [Hsock _]]]].
  destruct (remaining_bytes_four _ _ Hv Hrb) as [b1 [b2 [b3 [b4 [-> [H1 [H2 H3]]]]]]].
  exists s'. rewrite (last_write_app s' _ _ Hsock).
  unfold publish_packet, receive. cbn [app length read_packets].
  erewrite bind_ok by (unfold handle_control_packet_type, bind, modify; reflexivity).
  match goal with
  | |- context [bind (read_remaining_length (b1 :: b2 :: b3 :: b4 :: ?rest)) _ ?s0] =>
      destruct (read_fourth_length_byte_throws b1 b2 b3 b4 rest s0 eq_refl H1 H2 H3)
        as [rcv' [R Hcalls]]
  end.
  exists rcv'. split; [exact S|]. split; [|exact Hcalls].
  apply bind_throw. exact R.
Qed.

(** C3, as the code has it, for CONNECT: the CONNECT that an endpoint with
    the will ("t", "hello") sends is not decoded.  Read from the socket it
    makes [handle_connect] throw [protocol_error] before any field is
    decoded; and the statements that stand behind the throw, run on the
    body, take the will message with the length of the will topic, so they
    hand the handler the will message "h". *)
Theorem connect_with_will_not_decoded :
  exists s1 r1 r2,
    send_connect any_contents 60 endpoint_with_will = Ok tt s1 /\
    socket_ s1 = [[x10; x17] ++ connect_with_will_body] /\
    receive ([x10; x17] ++ connect_with_will_body) new_endpoint
      = Throw protocol_error r1 /\
    calls_ r1 = [] /\
    handle_connect_fields 7 (framed 16 connect_with_will_body new_endpoint)
      = Ok tt r2 /\
    calls_ r2 = [h_connect [x63] None None
                   (Some (mk_will [x74] [x68] false 0)) true 60] /\
    will_message will_t_hello = [x68; x65; x6c; x6c; x6f].
Proof.
  eexists. eexists. eexists.
  split; [vm_compute; reflexivity|].
  split; [reflexivity|].
  split; [vm_compute; reflexivity|].
  split; [reflexivity|].
  split; [vm_compute; reflexivity|].
  split; reflexivity.
Qed.

(** ** The keep-alive timer of the client (C9) *)





(** ** The theorems at concrete inputs *)

Lemma full_store_full (u : Z) :
  1 <= u <= 65535 -> In u (store_ids full_store).
Proof.
  intros H. unfold store_ids, full_store. rewrite map_map. cbn [packet_id].
  apply in_map_iff. exists (Z.to_nat u). split; [lia|].
  apply in_seq. lia.
Qed.

Lemma create_unique_packet_id_terminates_witness :
  (exists id,
     create_unique_packet_id in_flight_7 = Ok id (set_packet_id_master id in_flight_7) /\
     1 <= id <= 65535 /\ ~ In id (store_ids (store_ in_flight_7))) /\
  ((forall fuel,
      packet_id_loop fuel (packet_id_master_ all_in_flight) (store_ all_in_flight) = None) /\
   create_unique_packet_id all_in_flight = Diverge).
Proof.
  split.
  - apply (proj1 (proj2 (create_unique_packet_id_terminates in_flight_7))).
    vm_compute. reflexivity.
  - apply (proj2 (proj2 (create_unique_packet_id_terminates all_in_flight))).
    exact full_store_full.
Defined.


Lemma qos2_publish_always_delivered_witness :
  (exists s',
     deliver 52 (publish_body [x74] qos.exactly_once 7 [x78]) new_endpoint = Ok tt s' /\
     socket_ s' = socket_ new_endpoint
                  ++ [packet_id_packet control_packet_type.pubrec 0 7] /\
     calls_ s' = calls_ new_endpoint
                 ++ called new_endpoint H_publish (h_publish 52 (Some 7) [x74] [x78]) /\
     store_ s' = store_ new_endpoint) /\
  (exists s',
     deliver 98 (packet_id_body 7) new_endpoint = Ok tt s' /\
     socket_ s' = socket_ new_endpoint
                  ++ [packet_id_packet control_packet_type.pubcomp 0 7] /\
     calls_ s' = calls_ new_endpoint /\
     store_ s' = store_ new_endpoint).
Proof.
  apply (qos2_publish_always_delivered 52 [x74] 7 [x78] new_endpoint).
  - reflexivity.
  - reflexivity.
  - simpl. lia.
  - lia.
Defined.


Lemma qos2_publish_exchange_witness :
  (exists s1 e,
     publish_exactly_once_id any_contents 7 [x74] [x78] false new_endpoint = Ok true s1 /\
     socket_ s1 = socket_ new_endpoint
                  ++ [publish_packet false [x74] qos.exactly_once false 7 [x78] [x06]] /\
     store_ s1 = store_ new_endpoint ++ [e] /\
     entries_of 7 (store_ s1) = [e] /\
     expected_control_packet_type e = control_packet_type.pubrec) /\
  (exists s2 e',
     deliver 80 (packet_id_body 7) in_flight_7 = Ok tt s2 /\
     socket_ s2 = socket_ in_flight_7
                  ++ [packet_id_packet control_packet_type.pubrel 2 7] /\
     entries_of 7 (store_ s2) = [e'] /\
     expected_control_packet_type e' = control_packet_type.pubcomp /\
     store_bytes e' = packet_id_packet control_packet_type.pubrel 2 7 /\
     calls_ s2 = calls_ in_flight_7 ++ called in_flight_7 H_pubrec (h_pubrec 7)) /\
  (exists s3,
     deliver 112 (packet_id_body 7) awaiting_pubcomp_7 = Ok tt s3 /\
     socket_ s3 = socket_ awaiting_pubcomp_7 /\
     entries_of 7 (store_ s3) = [] /\
     calls_ s3 = calls_ awaiting_pubcomp_7
                 ++ called awaiting_pubcomp_7 H_pubcomp (h_pubcomp 7)).
Proof.
  destruct (qos2_publish_exchange any_contents 7 [x74] [x78] [x06] false
              ltac:(lia) eq_refl eq_refl eq_refl) as [H1 [H2 H3]].
  split; [|split].
  - apply H1. reflexivity.
  - apply (H2 in_flight_7 (mk_store 7 control_packet_type.pubrec None 0 0));
      reflexivity.
  - apply (H3 awaiting_pubcomp_7
             (mk_store 7 control_packet_type.pubcomp (Some [x62; x02; x00; x07]) 0 4));
      reflexivity.
Defined.

Lemma connack_resends_in_flight_witness :
  (exists s' e,
     send_publish any_contents [x74] qos.at_least_once false 7 [x78] new_endpoint
       = Ok tt s' /\
     store_ s' = emplace e (store_ new_endpoint) /\
     has_buf e = true /\
     last_write s' = publish_packet false [x74] qos.at_least_once false 7 [x78] [x06] /\
     store_bytes e = publish_packet true [x74] qos.at_least_once false 7 [x78] [x06] /\
     publish.is_dup (first_byte (store_bytes e)) = true /\
     publish.is_dup (first_byte (last_write s')) = false /\
     tl (store_bytes e) = tl (last_write s')) /\
  (exists s' e,
     deliver 80 (packet_id_body 7) in_flight_7 = Ok tt s' /\
     store_ s' = emplace e (erase_key 7 control_packet_type.pubrec (store_ in_flight_7)) /\
     has_buf e = true /\
     store_bytes e = last_write s' /\
     last_write s' = packet_id_packet control_packet_type.pubrel 2 7).
Proof.
  destruct (connack_resends_in_flight any_contents) as [_ [H2 H3]].
  split.
  - apply H2; [left; reflexivity | reflexivity | reflexivity | reflexivity].
  - apply H3. lia.
Defined.
